(** * rm4d: evaluation poses and IK reachability (experiment_scripts/eval_poses.py)

    A shallow embedding of [get_evaluation_poses], [evaluate_ik],
    [get_sim_and_robot] and [main].

    Numbers: numpy's float64 values are modelled as real numbers ([R]);
    rounding is not modelled.  Arrays of shape (n, 4, 4) are lists of [mat4],
    arrays of shape (n,) are lists.  numpy, scipy, the simulator and the robot
    are collaborators: they enter as interfaces ([RandomLib], [Collab]). *)

From Stdlib Require Import Reals Lra ZArith Lia String Ascii.
From stdpp Require Import base list gmap pretty.

Open Scope R_scope.

(** * Exceptions *)

Inductive exn : Type :=
| ValueError
| IndexError
| KeyError
| ExternalError (tag : string).

Inductive result (A : Type) : Type :=
| Ok (a : A)
| Raise (e : exn).
Arguments Ok {A} a.
Arguments Raise {A} e.

#[global] Instance result_ret : MRet result := fun A a => Ok a.
#[global] Instance result_bind : MBind result := fun A B f m =>
  match m with
  | Ok a => f a
  | Raise e => Raise e
  end.

(** * Arrays *)

(** A (3, 3) block, row-major. *)
Record mat3 : Type := Mat3 {
  m00 : R; m01 : R; m02 : R;
  m10 : R; m11 : R; m12 : R;
  m20 : R; m21 : R; m22 : R
}.

(** A (4, 4) homogeneous transform, row-major. *)
Record mat4 : Type := Mat4 {
  e00 : R; e01 : R; e02 : R; e03 : R;
  e10 : R; e11 : R; e12 : R; e13 : R;
  e20 : R; e21 : R; e22 : R; e23 : R;
  e30 : R; e31 : R; e32 : R; e33 : R
}.

(** [np.eye(4)] *)
Definition eye4 : mat4 :=
  Mat4 1 0 0 0
       0 1 0 0
       0 0 1 0
       0 0 0 1.

Definition eye3 : mat3 :=
  Mat3 1 0 0
       0 1 0
       0 0 1.

(** [T[:3, :3] = M] *)
Definition set_rot (T : mat4) (M : mat3) : mat4 :=
  Mat4 (m00 M) (m01 M) (m02 M) (e03 T)
       (m10 M) (m11 M) (m12 M) (e13 T)
       (m20 M) (m21 M) (m22 M) (e23 T)
       (e30 T) (e31 T) (e32 T) (e33 T).

(** [T[0, 3] = x], [T[1, 3] = y], [T[2, 3] = z] *)
Definition set_03 (T : mat4) (x : R) : mat4 :=
  Mat4 (e00 T) (e01 T) (e02 T) x
       (e10 T) (e11 T) (e12 T) (e13 T)
       (e20 T) (e21 T) (e22 T) (e23 T)
       (e30 T) (e31 T) (e32 T) (e33 T).

Definition set_13 (T : mat4) (y : R) : mat4 :=
  Mat4 (e00 T) (e01 T) (e02 T) (e03 T)
       (e10 T) (e11 T) (e12 T) y
       (e20 T) (e21 T) (e22 T) (e23 T)
       (e30 T) (e31 T) (e32 T) (e33 T).

Definition set_23 (T : mat4) (z : R) : mat4 :=
  Mat4 (e00 T) (e01 T) (e02 T) (e03 T)
       (e10 T) (e11 T) (e12 T) (e13 T)
       (e20 T) (e21 T) (e22 T) z
       (e30 T) (e31 T) (e32 T) (e33 T).

(** The blocks of a homogeneous transform. *)
Definition rot_block (T : mat4) : mat3 :=
  Mat3 (e00 T) (e01 T) (e02 T)
       (e10 T) (e11 T) (e12 T)
       (e20 T) (e21 T) (e22 T).

Definition translation (T : mat4) : R * R * R := (e03 T, e13 T, e23 T).

Definition bottom_row (T : mat4) : R * R * R * R := (e30 T, e31 T, e32 T, e33 T).

(** Determinant and orthonormality of a (3, 3) block. *)
Definition det3 (M : mat3) : R :=
  m00 M * (m11 M * m22 M - m12 M * m21 M)
  - m01 M * (m10 M * m22 M - m12 M * m20 M)
  + m02 M * (m10 M * m21 M - m11 M * m20 M).

Definition dot3 (a b : R * R * R) : R :=
  let '(a0, a1, a2) := a in
  let '(b0, b1, b2) := b in
  a0 * b0 + a1 * b1 + a2 * b2.

Definition row0 (M : mat3) : R * R * R := (m00 M, m01 M, m02 M).
Definition row1 (M : mat3) : R * R * R := (m10 M, m11 M, m12 M).
Definition row2 (M : mat3) : R * R * R := (m20 M, m21 M, m22 M).

Definition orthonormal (M : mat3) : Prop :=
  dot3 (row0 M) (row0 M) = 1 /\ dot3 (row1 M) (row1 M) = 1 /\
  dot3 (row2 M) (row2 M) = 1 /\ dot3 (row0 M) (row1 M) = 0 /\
  dot3 (row0 M) (row2 M) = 0 /\ dot3 (row1 M) (row2 M) = 0.

Definition is_rotation (M : mat3) : Prop := orthonormal M /\ det3 M = 1.

(** [np.full((n, 4, 4), fill)]: a negative dimension raises ValueError. *)
Definition np_full (n : Z) (fill : mat4) : result (list mat4) :=
  if (n <? 0)%Z then Raise ValueError else Ok (replicate (Z.to_nat n) fill).

(** numpy broadcasting along the first axis: a value of length [n] is taken
    as it is, a value of length 1 is repeated, anything else is a shape
    mismatch. *)
Definition broadcast_to {A : Type} (vals : list A) (n : nat) : result (list A) :=
  if Nat.eqb (length vals) n then Ok vals
  else match vals with
       | [x] => Ok (replicate n x)
       | _ => Raise ValueError
       end.

(** [arr[:, <index>] = vals], where [set] writes the indexed part of one row. *)
Definition assign_axis0 {A B : Type} (set : A -> B -> A)
    (arr : list A) (vals : list B) : result (list A) :=
  vs ← broadcast_to vals (length arr);
  mret (zip_with set arr vs).

(** [xs * ys] on arrays of shape (n,), with broadcasting. *)
Definition np_mul (xs ys : list R) : result (list R) :=
  if Nat.eqb (length xs) (length ys) then Ok (zip_with Rmult xs ys)
  else match xs, ys with
       | [x], _ => Ok (map (Rmult x) ys)
       | _, [y] => Ok (map (fun x => x * y) xs)
       | _, _ => Raise ValueError
       end.

(** * The random library (numpy Generator, scipy Rotation) *)

(** A generator is a state that every draw advances.  numpy refuses some
    arguments with ValueError: a negative seed, bounds in the wrong order;
    there the functions below give [None]. *)
Class RandomLib : Type := {
  Generator : Type;
  Rotation : Type;
  (** [np.random.default_rng(seed)] for an integer seed *)
  default_rng : Z -> option Generator;
  (** [rng.uniform(low, high, size)]: the samples and the advanced generator *)
  uniform : R -> R -> nat -> Generator -> option (list R * Generator);
  (** [Rotation.random(num=num, random_state=rng)] *)
  Rotation_random : nat -> Generator -> Rotation * Generator;
  (** [rot.as_matrix()], of shape (num, 3, 3) *)
  as_matrix : Rotation -> list mat3
}.

(** What a numpy call gave, or the ValueError it raised. *)
Definition or_ValueError {A : Type} (o : option A) : result A :=
  match o with
  | Some a => Ok a
  | None => Raise ValueError
  end.

(** * get_evaluation_poses *)

Section Sampler.
Context {L : RandomLib}.

(** The function, with the state of the generator it makes passed from
    draw to draw.  [get_evaluation_poses_on_heap] below is the function with
    the generators as objects. *)
Definition get_evaluation_poses (max_radius max_z : R) (n_samples seed : Z)
    : result (list mat4) :=
  rng ← or_ValueError (default_rng seed);
  tfs_ee ← np_full n_samples eye4;
  let n := Z.to_nat n_samples in
  let '(rot, rng) := Rotation_random n rng in
  tfs_ee ← assign_axis0 set_rot tfs_ee (as_matrix rot);
  '(u, rng) ← or_ValueError (uniform 0 1 n rng);
  let radii := map (Rmult max_radius) (map sqrt u) in
  '(v, rng) ← or_ValueError (uniform 0 1 n rng);
  let angles := map (Rmult (2 * PI)) v in
  x_pos ← np_mul radii (map cos angles);
  y_pos ← np_mul radii (map sin angles);
  tfs_ee ← assign_axis0 set_03 tfs_ee x_pos;
  tfs_ee ← assign_axis0 set_13 tfs_ee y_pos;
  '(z, rng) ← or_ValueError (uniform 0 max_z n rng);
  tfs_ee ← assign_axis0 set_23 tfs_ee z;
  mret tfs_ee.

(** The pose that row [i] ends up holding, from the rotation matrix and
    the three uniform draws of that row. *)
Definition sampled_pose (max_radius : R) (M : mat3) (u v z : R) : mat4 :=
  let r := max_radius * sqrt u in
  let theta := 2 * PI * v in
  set_23 (set_13 (set_03 (set_rot eye4 M) (r * cos theta)) (r * sin theta)) z.

(** The array the function returns when every draw has [n] rows, written
    out from the assignments above. *)
Definition sampled_array (max_radius : R) (n : nat)
    (rots : list mat3) (u v z : list R) : list mat4 :=
  let radii := map (Rmult max_radius) (map sqrt u) in
  let angles := map (Rmult (2 * PI)) v in
  zip_with set_23
    (zip_with set_13
      (zip_with set_03
        (zip_with set_rot (replicate n eye4) rots)
        (zip_with Rmult radii (map cos angles)))
      (zip_with Rmult radii (map sin angles)))
    z.

(** The values the generator hands out, in the order the function asks for
    them: the rotations, then the two draws for the disk, then the heights;
    [None] when numpy refuses the seed or a draw. *)
Record draws : Type := Draws {
  d_rots : list mat3;
  d_u : list R;
  d_v : list R;
  d_z : list R
}.

Definition sampler_draws (max_z : R) (n_samples seed : Z) : option draws :=
  let n := Z.to_nat n_samples in
  rng ← default_rng seed;
  let '(rot, rng) := Rotation_random n rng in
  '(u, rng) ← uniform 0 1 n rng;
  '(v, rng) ← uniform 0 1 n rng;
  '(z, rng) ← uniform 0 max_z n rng;
  Some (Draws (as_matrix rot) u v z).

(** ** What the libraries promise *)

(** [np.random.default_rng(seed)] takes every seed that is not negative. *)
Definition default_rng_accepts : Prop :=
  forall seed, (0 <= seed)%Z -> is_Some (default_rng seed).

(** [rng.uniform(low, high, size)] takes bounds that are in order. *)
Definition uniform_accepts : Prop :=
  forall lo hi n g, lo <= hi -> is_Some (uniform lo hi n g).

(** [rng.uniform(low, high, size)] has shape (size,). *)
Definition uniform_shape : Prop :=
  forall lo hi n g xs g', uniform lo hi n g = Some (xs, g') -> length xs = n.

(** [Rotation.random(num, ...).as_matrix()] has shape (num, 3, 3). *)
Definition rotation_shape : Prop :=
  forall n g, length (as_matrix (Rotation_random n g).1) = n.

(** Samples of [rng.uniform(low, high, size)] lie between the bounds. *)
Definition uniform_range : Prop :=
  forall lo hi n g xs g' x,
    lo <= hi -> uniform lo hi n g = Some (xs, g') -> x ∈ xs -> lo <= x <= hi.

(** [rot.as_matrix()] holds proper rotations: orthonormal, determinant 1. *)
Definition rotation_valid : Prop :=
  forall n g M, M ∈ as_matrix (Rotation_random n g).1 -> is_rotation M.

(** ** The generators as objects *)

(** In Python a generator is an object: [rng.uniform] and
    [Rotation.random(.., random_state=rng)] advance the state of the object
    they are given, and [Rotation.random] without a [random_state] advances
    numpy's global state.  The heap holds the state of every generator
    object there is, the global one at [global_state]. *)
Definition rng_heap : Type := gmap nat Generator.

Definition global_state : nat := 0%nat.

(** A computation on the heap that may raise. *)
Definition hio (A : Type) : Type := rng_heap -> result A * rng_heap.

Definition hio_ret {A : Type} (a : A) : hio A := fun h => (Ok a, h).

Definition hio_bind {A B : Type} (m : hio A) (f : A -> hio B) : hio B :=
  fun h =>
    let '(r, h1) := m h in
    match r with
    | Ok a => f a h1
    | Raise e => (Raise e, h1)
    end.

(** A step that does not touch the heap. *)
Definition hio_lift {A : Type} (r : result A) : hio A := fun h => (r, h).

(** [np.random.default_rng(seed)]: a new object. *)
Definition py_default_rng (seed : Z) : hio nat :=
  fun h =>
    match default_rng seed with
    | Some g => let rng := fresh (dom h) in (Ok rng, <[rng := g]> h)
    | None => (Raise ValueError, h)
    end.

(** A draw from the generator object [rng]: its state advances. *)
Definition py_draw {A : Type} (draw : Generator -> option (A * Generator))
    (rng : nat) : hio A :=
  fun h =>
    match h !! rng with
    | Some g =>
        match draw g with
        | Some (a, g') => (Ok a, <[rng := g']> h)
        | None => (Raise ValueError, h)
        end
    | None => (Raise (ExternalError "no such generator"), h)
    end.

(** [rng.uniform(low, high, size)] *)
Definition py_uniform (lo hi : R) (n : nat) (rng : nat) : hio (list R) :=
  py_draw (uniform lo hi n) rng.

(** [Rotation.random(num=num, random_state=random_state)]: with no
    [random_state] the draw is from the global state. *)
Definition py_Rotation_random (num : nat) (random_state : option nat)
    : hio Rotation :=
  py_draw (fun g => Some (Rotation_random num g))
    (match random_state with
     | Some rng => rng
     | None => global_state
     end).

(** get_evaluation_poses on the heap: the function as above, with the
    generator it makes as an object among the others. *)
Definition get_evaluation_poses_on_heap (max_radius max_z : R) (n_samples seed : Z)
    : hio (list mat4) :=
  hio_bind (py_default_rng seed) (fun rng =>
  hio_bind (hio_lift (np_full n_samples eye4)) (fun tfs_ee =>
  let n := Z.to_nat n_samples in
  hio_bind (py_Rotation_random n (Some rng)) (fun rot =>
  hio_bind (hio_lift (assign_axis0 set_rot tfs_ee (as_matrix rot))) (fun tfs_ee =>
  hio_bind (py_uniform 0 1 n rng) (fun u =>
  let radii := map (Rmult max_radius) (map sqrt u) in
  hio_bind (py_uniform 0 1 n rng) (fun v =>
  let angles := map (Rmult (2 * PI)) v in
  hio_bind (hio_lift (np_mul radii (map cos angles))) (fun x_pos =>
  hio_bind (hio_lift (np_mul radii (map sin angles))) (fun y_pos =>
  hio_bind (hio_lift (assign_axis0 set_03 tfs_ee x_pos)) (fun tfs_ee =>
  hio_bind (hio_lift (assign_axis0 set_13 tfs_ee y_pos)) (fun tfs_ee =>
  hio_bind (py_uniform 0 max_z n rng) (fun z =>
  hio_bind (hio_lift (assign_axis0 set_23 tfs_ee z)) (fun tfs_ee =>
  hio_ret tfs_ee)))))))))))).

End Sampler.

(** * The collaborators (simulator, robot, file system, console) *)

(** What the closing [print] calls show; the formatting of the numbers is
    left to the console. *)
Inductive message : Type :=
| MsgCompleted
| MsgPosesStored (num_samples : Z) (poses_fn : string)
| MsgReachableStored (reachable_fn : string)
| MsgPercentReachable (n_reachable num_samples : Z)
| MsgPercentNotReachable (n_reachable num_samples : Z).

(** A call may change the world.  The conversion is handed [tfs_ee[i]], a
    view of a row of the caller's pose array, and can write through it:
    [tf_to_pos_quat_view] is what the row holds when the call is over.  The
    solver is handed what the conversion returned. *)
Class Collab : Type := {
  (** the state of the simulator, the robot, the disk and the console *)
  World : Type;
  Pos : Type;
  Quat : Type;
  Sln : Type;
  (** [exp_utils.robot_types] (its keys) and [exp_utils.franka_versions] *)
  robot_types : list string;
  franka_versions : list (Z * string);
  (** [pathlib.Path(path).mkdir(parents=True, exist_ok=True)] *)
  path_mkdir : string -> World -> result unit * World;
  (** [Simulator(with_gui=False)] *)
  Simulator : World -> result unit * World;
  (** [robot_types[robot_type](sim)] or [robot_types[robot_type](sim, urdf_fn=urdf_fn)] *)
  robot_new : string -> option string -> World -> result unit * World;
  (** [robot.range_z], [robot.range_radius] *)
  range_z : World -> R;
  range_radius : World -> R;
  (** [sim.tf_to_pos_quat(tf)] *)
  tf_to_pos_quat : mat4 -> World -> result (Pos * Quat) * World;
  (** the row behind the view [tf], after [sim.tf_to_pos_quat(tf)] in this
      world *)
  tf_to_pos_quat_view : mat4 -> World -> mat4;
  (** [robot.inverse_kinematics(pos, quat, threshold=.., trials=.., seed=..)];
      [None] is Python's [None], no solution found *)
  inverse_kinematics :
    Pos -> Quat -> Z -> Z -> Z -> World -> result (option Sln) * World;
  (** [sim.disconnect()] *)
  disconnect : World -> result unit * World;
  (** [np.save(fn, arr)] *)
  np_save_poses : string -> list mat4 -> World -> result unit * World;
  np_save_bools : string -> list bool -> World -> result unit * World;
  (** [print(msg)] *)
  print : message -> World -> result unit * World
}.

Section Program.
Context {L : RandomLib} {C : Collab}.

(** One call to a collaborator, with what it returned or raised. *)
Inductive event : Type :=
| EvMkdir (path : string) (r : result unit)
| EvSimulator (r : result unit)
| EvRobot (robot_type : string) (urdf_fn : option string) (r : result unit)
| EvTfToPosQuat (tf : mat4) (r : result (Pos * Quat))
| EvIK (pos : Pos) (quat : Quat) (threshold trials seed : Z)
       (r : result (option Sln))
| EvDisconnect (r : result unit)
| EvSavePoses (fn : string) (arr : list mat4) (r : result unit)
| EvSaveBools (fn : string) (arr : list bool) (r : result unit)
| EvPrint (msg : message) (r : result unit).

(** A computation: from a world to the calls made, the world left behind
    and the value returned or the exception raised. *)
Definition io (A : Type) : Type := World -> list event * World * result A.

#[global] Instance io_ret : MRet io := fun A a w => ([], w, Ok a).
#[global] Instance io_bind : MBind io := fun A B f m w =>
  let '(t1, w1, r1) := m w in
  match r1 with
  | Ok a => let '(t2, w2, r2) := f a w1 in (t1 ++ t2, w2, r2)
  | Raise e => (t1, w1, Raise e)
  end.

(** A pure step that may raise. *)
Definition lift {A : Type} (r : result A) : io A := fun w => ([], w, r).

(** A call to a collaborator, recorded in the trace. *)
Definition call {A : Type} (h : World -> result A * World)
    (ev : result A -> event) : io A :=
  fun w => let '(r, w') := h w in ([ev r], w', r).

(** Reading an attribute of the robot. *)
Definition attr {A : Type} (f : World -> A) : io A := fun w => ([], w, Ok (f w)).

(** [for x in xs: s = body(s, x)] *)
Fixpoint for_each {A S : Type} (xs : list A) (body : S -> A -> io S) (s : S)
    : io S :=
  match xs with
  | [] => mret s
  | x :: xs' => s' ← body s x; for_each xs' body s'
  end.

(** [arr[i]] and [arr[i] = v] for [0 <= i]; out of range raises IndexError. *)
Definition getitem {A : Type} (arr : list A) (i : nat) : result A :=
  match arr !! i with
  | Some x => Ok x
  | None => Raise IndexError
  end.

Definition setitem {A : Type} (arr : list A) (i : nat) (v : A)
    : result (list A) :=
  if decide (i < length arr)%nat then Ok (<[i:=v]> arr) else Raise IndexError.

(** [d[k]] on a dict given by its items; a missing key raises KeyError. *)
Fixpoint dict_get {K V : Type} `{EqDecision K} (d : list (K * V)) (k : K)
    : result V :=
  match d with
  | [] => Raise KeyError
  | (k', v) :: d' => if decide (k' = k) then Ok v else dict_get d' k
  end.

(** ** evaluate_ik *)

(** The two arrays [evaluate_ik] works on. *)
Record frame : Type := Frame {
  tfs_ee : list mat4;
  reachable_by_ik : list bool
}.

(** [ik_sln is not None] *)
Definition is_not_None {A : Type} (x : option A) : bool :=
  match x with
  | Some _ => true
  | None => false
  end.

(** The body of the loop, for index [i].  [row] is what row [i] of the
    pose array holds once the conversion, which has a view of it, is over. *)
Definition evaluate_ik_body (threshold iterations seed : Z)
    (fr : frame) (i : nat) : io frame :=
  tf ← lift (getitem (tfs_ee fr) i);
  row ← attr (tf_to_pos_quat_view tf);
  '(pos, quat) ← call (tf_to_pos_quat tf) (EvTfToPosQuat tf);
  ik_sln ← call (inverse_kinematics pos quat threshold iterations seed)
                (EvIK pos quat threshold iterations seed);
  reachable ← lift (setitem (reachable_by_ik fr) i (is_not_None ik_sln));
  mret (Frame (<[i := row]> (tfs_ee fr)) reachable).


(** What a row may hold after the conversion of [tf]. *)
Definition row_written (tf tf' : mat4) : Prop :=
  exists w, tf' = tf_to_pos_quat_view tf w.

(** The function up to its [return], with both arrays in hand.  The
    progress bar ([tqdm]) only reports and is left out. *)
Definition evaluate_ik_frame (tfs : list mat4) (threshold iterations seed : Z)
    : io frame :=
  let fr := Frame tfs (replicate (length tfs) false) in
  for_each (seq 0 (length tfs)) (evaluate_ik_body threshold iterations seed) fr.

Definition evaluate_ik (tfs : list mat4) (threshold iterations seed : Z)
    : io (list bool) :=
  fr ← evaluate_ik_frame tfs threshold iterations seed;
  mret (reachable_by_ik fr).

(** ** get_sim_and_robot *)

(** The simulator and the robot live in the world; the function's two
    return values are handles to them. *)
Definition get_sim_and_robot (robot_type : string) (degrees : Z) : io unit :=
  _ ← call Simulator EvSimulator;
  if decide (robot_type = "franka") then
    urdf_fn ← lift (dict_get franka_versions degrees);
    _ ← lift (if decide (robot_type ∈ robot_types) then Ok () else Raise KeyError);
    call (robot_new robot_type (Some urdf_fn)) (EvRobot robot_type (Some urdf_fn))
  else
    _ ← lift (if decide (robot_type ∈ robot_types) then Ok () else Raise KeyError);
    call (robot_new robot_type None) (EvRobot robot_type None).

(** ** main *)

(** The parsed command line. *)
Record Args : Type := {
  arg_robot_type : string;
  arg_degrees : Z;
  arg_num_samples : Z;
  arg_threshold : Z;
  arg_iterations : Z;
  arg_seed : Z
}.

(** [os.path.join(a, b)] for a relative [b] *)
Definition path_join (a b : string) : string := a +:+ "/" +:+ b.

(** [arr.sum()] of a bool array *)
Definition np_sum (arr : list bool) : Z :=
  foldr (fun (b : bool) acc => ((if b then 1 else 0) + acc)%Z) 0%Z arr.

Definition data_dir_of (args : Args) : string :=
  let robot_type := arg_robot_type args in
  let robot_name :=
    if decide (robot_type = "franka")
    then robot_type +:+ pretty (arg_degrees args)
    else robot_type in
  path_join "data"
    ("eval_poses_" +:+ robot_name +:+ "_n" +:+ pretty (arg_num_samples args)
     +:+ "_t" +:+ pretty (arg_threshold args)
     +:+ "_i" +:+ pretty (arg_iterations args)).

Definition main (args : Args) : io unit :=
  let robot_type := arg_robot_type args in
  let degrees := arg_degrees args in
  let num_samples := arg_num_samples args in
  let threshold := arg_threshold args in
  let iterations := arg_iterations args in
  let seed := arg_seed args in
  let data_dir := data_dir_of args in
  _ ← call (path_mkdir data_dir) (EvMkdir data_dir);
  _ ← get_sim_and_robot robot_type degrees;
  z_max ← attr range_z;
  radius ← attr range_radius;
  poses ← lift (get_evaluation_poses radius z_max num_samples seed);
  let poses_fn := path_join data_dir "poses.npy" in
  _ ← call (np_save_poses poses_fn poses) (EvSavePoses poses_fn poses);
  reachable ← evaluate_ik poses threshold iterations seed;
  _ ← call disconnect EvDisconnect;
  let reachable_fn := path_join data_dir "reachable_by_ik.npy" in
  _ ← call (np_save_bools reachable_fn reachable) (EvSaveBools reachable_fn reachable);
  _ ← call (print MsgCompleted) (EvPrint MsgCompleted);
  _ ← call (print (MsgPosesStored num_samples poses_fn))
           (EvPrint (MsgPosesStored num_samples poses_fn));
  _ ← call (print (MsgReachableStored reachable_fn))
           (EvPrint (MsgReachableStored reachable_fn));
  _ ← call (print (MsgPercentReachable (np_sum reachable) num_samples))
           (EvPrint (MsgPercentReachable (np_sum reachable) num_samples));
  call (print (MsgPercentNotReachable (np_sum reachable) num_samples))
       (EvPrint (MsgPercentNotReachable (np_sum reachable) num_samples)).

(** ** Reading a trace *)

(** The call raised instead of returning. *)
Definition is_Raise {A : Type} (r : result A) : bool :=
  match r with
  | Ok _ => false
  | Raise _ => true
  end.

Definition event_raised (ev : event) : bool :=
  match ev with
  | EvMkdir _ r | EvSimulator r | EvRobot _ _ r | EvDisconnect r
  | EvSavePoses _ _ r | EvSaveBools _ _ r | EvPrint _ r => is_Raise r
  | EvTfToPosQuat _ r => is_Raise r
  | EvIK _ _ _ _ _ r => is_Raise r
  end.

(** An invocation of the IK solver: its arguments and its outcome. *)
Record ik_call : Type := IkCall {
  ik_pos : Pos;
  ik_quat : Quat;
  ik_threshold : Z;
  ik_trials : Z;
  ik_seed : Z;
  ik_outcome : result (option Sln)
}.

(** The solver invocations of a trace, in order. *)
Fixpoint ik_calls (t : list event) : list ik_call :=
  match t with
  | [] => []
  | EvIK pos quat threshold trials seed r :: t' =>
      IkCall pos quat threshold trials seed r :: ik_calls t'
  | _ :: t' => ik_calls t'
  end.

(** The pose conversions of a trace, in order. *)
Fixpoint tf_calls (t : list event) : list (mat4 * result (Pos * Quat)) :=
  match t with
  | [] => []
  | EvTfToPosQuat tf r :: t' => (tf, r) :: tf_calls t'
  | _ :: t' => tf_calls t'
  end.

(** The events of the evaluation: conversions and solver invocations. *)
Definition is_evaluation_event (ev : event) : bool :=
  match ev with
  | EvTfToPosQuat _ _ | EvIK _ _ _ _ _ _ => true
  | _ => false
  end.

(** No call of the trace raised. *)
Definition all_returned (t : list event) : Prop :=
  Forall (fun ev => event_raised ev = false) t.

(** No event of the trace belongs to the evaluation. *)
Definition non_evaluation (t : list event) : Prop :=
  Forall (fun ev => is_evaluation_event ev = false) t.

(** A run of the loop over [tfs] in which every call returned, from world
    [w] to world [w']: per pose one conversion, then one solver invocation
    on what the conversion gave, and the verdict on what the solver gave. *)
Inductive ok_steps (threshold iterations seed : Z)
    : World -> list mat4 -> list event -> list bool -> World -> Prop :=
| ok_steps_nil w : ok_steps threshold iterations seed w [] [] [] w
| ok_steps_cons w w1 w2 w' tf pos quat sln tfs t vs :
    tf_to_pos_quat tf w = (Ok (pos, quat), w1) ->
    inverse_kinematics pos quat threshold iterations seed w1 = (Ok sln, w2) ->
    ok_steps threshold iterations seed w2 tfs t vs w' ->
    ok_steps threshold iterations seed w (tf :: tfs)
      (EvTfToPosQuat tf (Ok (pos, quat))
         :: EvIK pos quat threshold iterations seed (Ok sln) :: t)
      (is_not_None sln :: vs) w'.

(** A run of the loop body on pose [tf] in which a call raised [e]. *)
Inductive failing_step (threshold iterations seed : Z) (tf : mat4)
    : World -> list event -> exn -> World -> Prop :=
| failing_tf w w1 e :
    tf_to_pos_quat tf w = (Raise e, w1) ->
    failing_step threshold iterations seed tf w [EvTfToPosQuat tf (Raise e)] e w1
| failing_ik w w1 w2 pos quat e :
    tf_to_pos_quat tf w = (Ok (pos, quat), w1) ->
    inverse_kinematics pos quat threshold iterations seed w1 = (Raise e, w2) ->
    failing_step threshold iterations seed tf w
      [EvTfToPosQuat tf (Ok (pos, quat));
       EvIK pos quat threshold iterations seed (Raise e)] e w2.

(** ** Reading a trace: exceptions and stages *)

(** The exception a call ended with, when it raised. *)
Definition result_exn {A : Type} (r : result A) : option exn :=
  match r with
  | Ok _ => None
  | Raise e => Some e
  end.

Definition event_exn (ev : event) : option exn :=
  match ev with
  | EvMkdir _ r | EvSimulator r | EvRobot _ _ r | EvDisconnect r
  | EvSavePoses _ _ r | EvSaveBools _ _ r | EvPrint _ r => result_exn r
  | EvTfToPosQuat _ r => result_exn r
  | EvIK _ _ _ _ _ r => result_exn r
  end.

(** The stage of main a call belongs to: 0 for the set-up (the directory,
    the simulator, the robot, saving the poses), 1 for the evaluation, 2 for
    the closing calls (disconnecting, saving the verdicts, printing). *)
Definition event_stage (ev : event) : nat :=
  match ev with
  | EvMkdir _ _ | EvSimulator _ | EvRobot _ _ _ | EvSavePoses _ _ _ => 0
  | EvTfToPosQuat _ _ | EvIK _ _ _ _ _ _ => 1
  | EvDisconnect _ | EvSaveBools _ _ _ | EvPrint _ _ => 2
  end.

(** A computation stops at the first call that raises: when it returns,
    every call returned; when it raises [e], either every call returned and
    [e] is the program's own, or the last call raised [e] and every call
    before it returned. *)
Definition stops_at_first_raise {A : Type} (m : io A) : Prop :=
  forall w t w' r,
    m w = (t, w', r) ->
    match r with
    | Ok _ => all_returned t
    | Raise e =>
        all_returned t \/
        exists t0 ev, t = t0 ++ [ev] /\ all_returned t0 /\ event_exn ev = Some e
    end.

(** The verdict of a pose in front of the outcome of the poses after it. *)
Definition cons_verdict (v : bool) (r : result (list bool)) : result (list bool) :=
  match r with
  | Ok vs => Ok (v :: vs)
  | Raise e => Raise e
  end.

(** The loop of evaluate_ik, pose by pose, from world [w] to world [w']:
    the calls made and the verdicts returned or the exception raised. *)
Inductive loop_run (threshold iterations seed : Z)
    : World -> list mat4 -> list event -> World -> result (list bool) -> Prop :=
| loop_run_nil w :
    loop_run threshold iterations seed w [] [] w (Ok [])
| loop_run_tf_raise w w1 tf tfs e :
    tf_to_pos_quat tf w = (Raise e, w1) ->
    loop_run threshold iterations seed w (tf :: tfs)
      [EvTfToPosQuat tf (Raise e)] w1 (Raise e)
| loop_run_ik_raise w w1 w2 tf tfs pos quat e :
    tf_to_pos_quat tf w = (Ok (pos, quat), w1) ->
    inverse_kinematics pos quat threshold iterations seed w1 = (Raise e, w2) ->
    loop_run threshold iterations seed w (tf :: tfs)
      [EvTfToPosQuat tf (Ok (pos, quat));
       EvIK pos quat threshold iterations seed (Raise e)] w2 (Raise e)
| loop_run_cons w w1 w2 w' tf tfs pos quat sln t r :
    tf_to_pos_quat tf w = (Ok (pos, quat), w1) ->
    inverse_kinematics pos quat threshold iterations seed w1 = (Ok sln, w2) ->
    loop_run threshold iterations seed w2 tfs t w' r ->
    loop_run threshold iterations seed w (tf :: tfs)
      (EvTfToPosQuat tf (Ok (pos, quat))
         :: EvIK pos quat threshold iterations seed (Ok sln) :: t)
      w' (cons_verdict (is_not_None sln) r).

End Program.

(** * Stand-ins for the collaborators, to run the definitions on *)

(** A generator that counts its calls; each call repeats one sample. *)
Definition demo_fraction (g : nat) : R :=
  match g with
  | 1%nat => / 4
  | 2%nat => 0
  | _ => / 2
  end.

Definition demo_lib : RandomLib := {|
  Generator := nat;
  Rotation := nat;
  default_rng := fun seed => if (seed <? 0)%Z then None else Some 0%nat;
  uniform := fun lo hi n g =>
    Some (replicate n (lo + (hi - lo) * demo_fraction g), S g);
  Rotation_random := fun n g => (n, S g);
  as_matrix := fun n => replicate n eye3
|}.

(** A world that counts the solver invocations: the solver finds a
    solution, then none, then crashes, and so on. *)
Definition demo_collab : Collab := {|
  World := nat;
  Pos := R * R * R;
  Quat := mat3;
  Sln := unit;
  robot_types := ["franka"; "ur5e"];
  franka_versions := [(150%Z, "franka_150.urdf"); (160%Z, "franka_160.urdf");
                      (166%Z, "franka.urdf")];
  path_mkdir := fun _ w => (Ok (), w);
  Simulator := fun w => (Ok (), w);
  robot_new := fun _ _ w => (Ok (), w);
  range_z := fun _ => 12 / 10;
  range_radius := fun _ => 8 / 10;
  tf_to_pos_quat := fun tf w => (Ok (translation tf, rot_block tf), w);
  tf_to_pos_quat_view := fun tf _ => tf;
  inverse_kinematics := fun _ _ _ _ _ w =>
    (match (w mod 3)%nat with
     | 0%nat => Ok (Some ())
     | 1%nat => Ok None
     | _ => Raise (ExternalError "solver crashed")
     end, S w);
  disconnect := fun w => (Ok (), w);
  np_save_poses := fun _ _ w => (Ok (), w);
  np_save_bools := fun _ _ w => (Ok (), w);
  print := fun _ w => (Ok (), w)
|}.

Definition demo_args : Args := {|
  arg_robot_type := "franka";
  arg_degrees := 166;
  arg_num_samples := 2;
  arg_threshold := 25;
  arg_iterations := 100;
  arg_seed := 27
|}.

(** Poses to run the evaluation on. *)
Definition demo_poses : list mat4 :=
  [eye4; set_03 eye4 (/ 2)].

(** Three poses: on the third one the stand-in solver crashes. *)
Definition demo_poses3 : list mat4 :=
  [eye4; set_03 eye4 (/ 2); set_23 eye4 (/ 4)].

(** The same world, with a simulator that cannot convert a pose once the
    solver has been invoked. *)
Definition demo_collab_tf : Collab := {|
  World := nat;
  Pos := R * R * R;
  Quat := mat3;
  Sln := unit;
  robot_types := ["franka"; "ur5e"];
  franka_versions := [(150%Z, "franka_150.urdf"); (160%Z, "franka_160.urdf");
                      (166%Z, "franka.urdf")];
  path_mkdir := fun _ w => (Ok (), w);
  Simulator := fun w => (Ok (), w);
  robot_new := fun _ _ w => (Ok (), w);
  range_z := fun _ => 12 / 10;
  range_radius := fun _ => 8 / 10;
  tf_to_pos_quat := fun tf w =>
    (match w with
     | 0%nat => Ok (translation tf, rot_block tf)
     | _ => Raise (ExternalError "malformed pose")
     end, w);
  tf_to_pos_quat_view := fun tf _ => tf;
  inverse_kinematics := fun _ _ _ _ _ w => (Ok (Some ()), S w);
  disconnect := fun w => (Ok (), w);
  np_save_poses := fun _ _ w => (Ok (), w);
  np_save_bools := fun _ _ w => (Ok (), w);
  print := fun _ w => (Ok (), w)
|}.

(** The world of [demo_collab], with a simulator whose conversion moves the
    pose it is handed to the ground plane, in place. *)
Definition demo_collab_writes : Collab := {|
  World := nat;
  Pos := R * R * R;
  Quat := mat3;
  Sln := unit;
  robot_types := ["franka"; "ur5e"];
  franka_versions := [(150%Z, "franka_150.urdf"); (160%Z, "franka_160.urdf");
                      (166%Z, "franka.urdf")];
  path_mkdir := fun _ w => (Ok (), w);
  Simulator := fun w => (Ok (), w);
  robot_new := fun _ _ w => (Ok (), w);
  range_z := fun _ => 12 / 10;
  range_radius := fun _ => 8 / 10;
  tf_to_pos_quat := fun tf w => (Ok (translation tf, rot_block tf), w);
  tf_to_pos_quat_view := fun tf _ => set_23 tf 0;
  inverse_kinematics := fun _ _ _ _ _ w => (Ok (Some ()), S w);
  disconnect := fun w => (Ok (), w);
  np_save_poses := fun _ _ w => (Ok (), w);
  np_save_bools := fun _ _ w => (Ok (), w);
  print := fun _ w => (Ok (), w)
|}.

(** Three samples: the stand-in solver crashes on the third. *)
Definition demo_args3 : Args := {|
  arg_robot_type := "franka";
  arg_degrees := 166;
  arg_num_samples := 3;
  arg_threshold := 25;
  arg_iterations := 100;
  arg_seed := 27
|}.

(** A negative sample count, an unknown joint range, another robot. *)
Definition demo_args_negative : Args := {|
  arg_robot_type := "franka";
  arg_degrees := 166;
  arg_num_samples := -1;
  arg_threshold := 25;
  arg_iterations := 100;
  arg_seed := 27
|}.

Definition demo_args_ur5e : Args := {|
  arg_robot_type := "ur5e";
  arg_degrees := 166;
  arg_num_samples := 2;
  arg_threshold := 25;
  arg_iterations := 100;
  arg_seed := 27
|}.

(** ** Strings without an underscore *)

Fixpoint no_underscore (s : string) : Prop :=
  match s with
  | EmptyString => True
  | String c s' => c <> "_"%char /\ no_underscore s'
  end.

(** * Proofs: arrays *)

Lemma broadcast_to_same {A : Type} (vals : list A) n :
  length vals = n -> broadcast_to vals n = Ok vals.
Proof.
  intros H. unfold broadcast_to.
  apply Nat.eqb_eq in H. now rewrite H.
Qed.

Lemma assign_axis0_same {A B : Type} (set : A -> B -> A) arr vals :
  length vals = length arr ->
  assign_axis0 set arr vals = Ok (zip_with set arr vals).
Proof.
  intros H. unfold assign_axis0.
  now rewrite (broadcast_to_same _ _ H).
Qed.

Lemma np_mul_same xs ys :
  length xs = length ys -> np_mul xs ys = Ok (zip_with Rmult xs ys).
Proof.
  intros H. unfold np_mul.
  apply Nat.eqb_eq in H. now rewrite H.
Qed.

Lemma np_full_nonneg n fill :
  (0 <= n)%Z -> np_full n fill = Ok (replicate (Z.to_nat n) fill).
Proof.
  intros H. unfold np_full.
  destruct (Z.ltb_spec n 0); [lia | reflexivity].
Qed.

Lemma np_full_negative n fill :
  (n < 0)%Z -> np_full n fill = Raise ValueError.
Proof.
  intros H. unfold np_full.
  destruct (Z.ltb_spec n 0); [reflexivity | lia].
Qed.

(** * Proofs: the sampler *)

(** The run of get_evaluation_poses when numpy takes the seed and the
    bounds, and the draws have the requested sizes. *)
Lemma get_evaluation_poses_unfold `{L : RandomLib}
    max_radius max_z n_samples seed g0 rot g1 u g2 v g3 z g4 :
  uniform_shape -> rotation_shape -> (0 <= n_samples)%Z ->
  default_rng seed = Some g0 ->
  Rotation_random (Z.to_nat n_samples) g0 = (rot, g1) ->
  uniform 0 1 (Z.to_nat n_samples) g1 = Some (u, g2) ->
  uniform 0 1 (Z.to_nat n_samples) g2 = Some (v, g3) ->
  uniform 0 max_z (Z.to_nat n_samples) g3 = Some (z, g4) ->
  get_evaluation_poses max_radius max_z n_samples seed
    = Ok (sampled_array max_radius (Z.to_nat n_samples) (as_matrix rot) u v z) /\
  length (sampled_array max_radius (Z.to_nat n_samples) (as_matrix rot) u v z)
    = Z.to_nat n_samples /\
  sampler_draws max_z n_samples seed = Some (Draws (as_matrix rot) u v z).
Proof.
  intros Hunif Hrot Hn E0 E1 E2 E3 E4.
  pose proof (Hrot (Z.to_nat n_samples) g0) as Lr. rewrite E1 in Lr. cbn in Lr.
  pose proof (Hunif _ _ _ _ _ _ E2) as Lu.
  pose proof (Hunif _ _ _ _ _ _ E3) as Lv.
  pose proof (Hunif _ _ _ _ _ _ E4) as Lz.
  split; [| split].
  - unfold get_evaluation_poses, sampled_array.
    rewrite E0. cbn [or_ValueError mbind result_bind].
    rewrite (np_full_nonneg _ _ Hn). cbn [mbind result_bind].
    rewrite E1.
    rewrite assign_axis0_same by (now rewrite length_replicate).
    cbn [mbind result_bind]. rewrite E2. cbn [or_ValueError mbind result_bind].
    rewrite E3. cbn [or_ValueError mbind result_bind].
    rewrite !np_mul_same by (now rewrite !length_map, ?Lu, ?Lv).
    cbn [mbind result_bind].
    rewrite assign_axis0_same
      by (now rewrite !length_zip_with, !length_map, length_replicate, Lr, Lu, Lv,
                !Nat.min_id).
    cbn [mbind result_bind].
    rewrite assign_axis0_same
      by (now rewrite !length_zip_with, !length_map, length_replicate, Lr, Lu, Lv,
                !Nat.min_id).
    cbn [mbind result_bind]. rewrite E4. cbn [or_ValueError mbind result_bind].
    rewrite assign_axis0_same
      by (now rewrite !length_zip_with, !length_map, length_replicate, Lr, Lu, Lv, Lz,
                !Nat.min_id).
    reflexivity.
  - unfold sampled_array.
    now rewrite !length_zip_with, !length_map, length_replicate, Lr, Lu, Lv, Lz,
      !Nat.min_id.
  - unfold sampler_draws. rewrite E0. cbn. rewrite E1, E2. cbn. rewrite E3. cbn.
    now rewrite E4.
Qed.

(** When get_evaluation_poses returns, numpy took the seed and the bounds,
    and the array is the one built from the draws. *)
Lemma get_evaluation_poses_inv `{L : RandomLib} max_radius max_z n_samples seed tfs :
  uniform_shape -> rotation_shape ->
  get_evaluation_poses max_radius max_z n_samples seed = Ok tfs ->
  (0 <= n_samples)%Z /\
  exists g0 rot g1 u g2 v g3 z g4,
    default_rng seed = Some g0 /\
    Rotation_random (Z.to_nat n_samples) g0 = (rot, g1) /\
    uniform 0 1 (Z.to_nat n_samples) g1 = Some (u, g2) /\
    uniform 0 1 (Z.to_nat n_samples) g2 = Some (v, g3) /\
    uniform 0 max_z (Z.to_nat n_samples) g3 = Some (z, g4) /\
    tfs = sampled_array max_radius (Z.to_nat n_samples) (as_matrix rot) u v z.
Proof.
  intros Hunif Hrot Hrun.
  destruct (default_rng seed) as [g0|] eqn:E0.
  2: { unfold get_evaluation_poses in Hrun. rewrite E0 in Hrun. discriminate. }
  destruct (Z.ltb_spec n_samples 0) as [Hneg | Hn].
  { unfold get_evaluation_poses in Hrun. rewrite E0 in Hrun.
    cbn [or_ValueError mbind result_bind] in Hrun.
    rewrite (np_full_negative _ _ Hneg) in Hrun. discriminate. }
  split; [exact Hn |].
  destruct (Rotation_random (Z.to_nat n_samples) g0) as [rot g1] eqn:E1.
  pose proof (Hrot (Z.to_nat n_samples) g0) as Lr. rewrite E1 in Lr. cbn in Lr.
  assert (Hstart : get_evaluation_poses max_radius max_z n_samples seed
            = ('(u, rng) ← or_ValueError (uniform 0 1 (Z.to_nat n_samples) g1);
               let radii := map (Rmult max_radius) (map sqrt u) in
               '(v, rng) ← or_ValueError (uniform 0 1 (Z.to_nat n_samples) rng);
               let angles := map (Rmult (2 * PI)) v in
               x_pos ← np_mul radii (map cos angles);
               y_pos ← np_mul radii (map sin angles);
               tfs_ee ← assign_axis0 set_03
                          (zip_with set_rot (replicate (Z.to_nat n_samples) eye4)
                             (as_matrix rot)) x_pos;
               tfs_ee ← assign_axis0 set_13 tfs_ee y_pos;
               '(z, rng) ← or_ValueError (uniform 0 max_z (Z.to_nat n_samples) rng);
               tfs_ee ← assign_axis0 set_23 tfs_ee z;
               mret tfs_ee)).
  { unfold get_evaluation_poses. rewrite E0. cbn [or_ValueError mbind result_bind].
    rewrite (np_full_nonneg _ _ Hn). cbn [mbind result_bind]. rewrite E1.
    rewrite assign_axis0_same by (now rewrite length_replicate). reflexivity. }
  rewrite Hstart in Hrun. clear Hstart.
  destruct (uniform 0 1 (Z.to_nat n_samples) g1) as [[u g2]|] eqn:E2;
    [| discriminate Hrun].
  cbn [or_ValueError mbind result_bind] in Hrun.
  destruct (uniform 0 1 (Z.to_nat n_samples) g2) as [[v g3]|] eqn:E3;
    [| discriminate Hrun].
  cbn [or_ValueError mbind result_bind] in Hrun.
  pose proof (Hunif _ _ _ _ _ _ E2) as Lu.
  pose proof (Hunif _ _ _ _ _ _ E3) as Lv.
  rewrite !np_mul_same in Hrun by (now rewrite !length_map, ?Lu, ?Lv).
  cbn [mbind result_bind] in Hrun.
  rewrite assign_axis0_same in Hrun
    by (now rewrite !length_zip_with, !length_map, length_replicate, Lr, Lu, Lv,
              !Nat.min_id).
  cbn [mbind result_bind] in Hrun.
  rewrite assign_axis0_same in Hrun
    by (now rewrite !length_zip_with, !length_map, length_replicate, Lr, Lu, Lv,
              !Nat.min_id).
  cbn [mbind result_bind] in Hrun.
  destruct (uniform 0 max_z (Z.to_nat n_samples) g3) as [[z g4]|] eqn:E4;
    [| discriminate Hrun].
  exists g0, rot, g1, u, g2, v, g3, z, g4.
  repeat (split; [assumption || reflexivity |]).
  destruct (get_evaluation_poses_unfold max_radius max_z n_samples seed
              g0 rot g1 u g2 v g3 z g4 Hunif Hrot Hn E0 E1 E2 E3 E4) as (Hok & _).
  cbn [or_ValueError mbind result_bind] in Hrun.
  pose proof (Hunif _ _ _ _ _ _ E4) as Lz.
  rewrite assign_axis0_same in Hrun
    by (now rewrite !length_zip_with, !length_map, length_replicate, Lr, Lu, Lv, Lz,
              !Nat.min_id).
  now injection Hrun as <-.
Qed.

(** With a seed and bounds that numpy takes, get_evaluation_poses returns. *)
Lemma get_evaluation_poses_returns `{L : RandomLib} max_radius max_z n_samples seed :
  default_rng_accepts -> uniform_accepts -> uniform_shape -> rotation_shape ->
  (0 <= n_samples)%Z -> (0 <= seed)%Z -> 0 <= max_z ->
  exists tfs, get_evaluation_poses max_radius max_z n_samples seed = Ok tfs.
Proof.
  intros Hseed Hacc Hunif Hrot Hn Hs Hz.
  destruct (Hseed seed Hs) as [g0 E0].
  destruct (Rotation_random (Z.to_nat n_samples) g0) as [rot g1] eqn:E1.
  destruct (Hacc 0 1 (Z.to_nat n_samples) g1) as [[u g2] E2]; [lra |].
  destruct (Hacc 0 1 (Z.to_nat n_samples) g2) as [[v g3] E3]; [lra |].
  destruct (Hacc 0 max_z (Z.to_nat n_samples) g3) as [[z g4] E4]; [exact Hz |].
  eexists.
  exact (proj1 (get_evaluation_poses_unfold max_radius max_z n_samples seed
                  g0 rot g1 u g2 v g3 z g4 Hunif Hrot Hn E0 E1 E2 E3 E4)).
Qed.

Lemma sampled_array_lookup max_radius n rots u v z i T :
  sampled_array max_radius n rots u v z !! i = Some T ->
  exists M ui vi zi,
    rots !! i = Some M /\ u !! i = Some ui /\
    v !! i = Some vi /\ z !! i = Some zi /\
    T = sampled_pose max_radius M ui vi zi.
Proof.
  unfold sampled_array. intros H.
  apply lookup_zip_with_Some in H as (T2 & zi & -> & H & Hz).
  apply lookup_zip_with_Some in H as (T1 & yi & -> & H & Hy).
  apply lookup_zip_with_Some in H as (T0 & xi & -> & H & Hx).
  apply lookup_zip_with_Some in H as (E & M & -> & HE & HM).
  apply lookup_replicate in HE as [-> _].
  apply lookup_zip_with_Some in Hx as (rx & cx & -> & Hrx & Hcx).
  apply lookup_zip_with_Some in Hy as (ry & sy & -> & Hry & Hsy).
  rewrite !list_lookup_fmap in Hrx, Hry.
  rewrite !list_lookup_fmap in Hcx, Hsy.
  destruct (u !! i) as [ui|] eqn:Eu; [|discriminate].
  destruct (v !! i) as [vi|] eqn:Ev; [|discriminate].
  cbn in Hrx, Hry, Hcx, Hsy.
  injection Hrx as <-. injection Hry as <-.
  injection Hcx as <-. injection Hsy as <-.
  exists M, ui, vi, zi. repeat split; auto.
Qed.

(** Row by row: when the function returns, row [i] is the pose built from
    the [i]-th rotation and the [i]-th entries of the three draws. *)
Lemma get_evaluation_poses_rows `{L : RandomLib} max_radius max_z n_samples seed tfs :
  uniform_shape -> rotation_shape ->
  get_evaluation_poses max_radius max_z n_samples seed = Ok tfs ->
  exists d,
    sampler_draws max_z n_samples seed = Some d /\
    (0 <= n_samples)%Z /\
    length tfs = Z.to_nat n_samples /\
    (exists g, d_rots d = as_matrix (Rotation_random (Z.to_nat n_samples) g).1) /\
    (exists g g', uniform 0 1 (Z.to_nat n_samples) g = Some (d_u d, g')) /\
    (exists g g', uniform 0 1 (Z.to_nat n_samples) g = Some (d_v d, g')) /\
    (exists g g', uniform 0 max_z (Z.to_nat n_samples) g = Some (d_z d, g')) /\
    forall i T, tfs !! i = Some T ->
      exists M ui vi zi,
        d_rots d !! i = Some M /\ d_u d !! i = Some ui /\
        d_v d !! i = Some vi /\ d_z d !! i = Some zi /\
        T = sampled_pose max_radius M ui vi zi.
Proof.
  intros Hunif Hrot Hrun.
  destruct (get_evaluation_poses_inv _ _ _ _ _ Hunif Hrot Hrun)
    as (Hn & g0 & rot & g1 & u & g2 & v & g3 & z & g4 & E0 & E1 & E2 & E3 & E4 & ->).
  destruct (get_evaluation_poses_unfold max_radius max_z n_samples seed
              g0 rot g1 u g2 v g3 z g4 Hunif Hrot Hn E0 E1 E2 E3 E4)
    as (_ & Hlen & Hdraws).
  exists (Draws (as_matrix rot) u v z). cbn [d_rots d_u d_v d_z].
  split; [exact Hdraws |]. split; [exact Hn |]. split; [exact Hlen |].
  split; [exists g0; now rewrite E1 |].
  split; [now exists g1, g2 |]. split; [now exists g2, g3 |].
  split; [now exists g3, g4 |].
  intros i T HT. eapply sampled_array_lookup. exact HT.
Qed.

(** ** The stand-in library keeps the promises *)

Lemma demo_default_rng_accepts : @default_rng_accepts demo_lib.
Proof.
  intros seed Hs. cbn. destruct (Z.ltb_spec seed 0); [lia | now eexists].
Qed.

Lemma demo_uniform_accepts : @uniform_accepts demo_lib.
Proof. intros lo hi n g _. cbn. now eexists. Qed.

Lemma demo_uniform_shape : @uniform_shape demo_lib.
Proof. intros lo hi n g xs g' [= <- _]. apply length_replicate. Qed.

Lemma demo_rotation_shape : @rotation_shape demo_lib.
Proof. intros n g. cbn. apply length_replicate. Qed.

Lemma demo_uniform_range : @uniform_range demo_lib.
Proof.
  intros lo hi n g xs g' x Hle [= <- _] Hx.
  apply elem_of_replicate in Hx as [-> _].
  unfold demo_fraction. destruct g as [|[|[|g]]]; lra.
Qed.

Lemma is_rotation_eye3 : is_rotation eye3.
Proof. unfold is_rotation, orthonormal, det3, dot3; cbn. repeat split; lra. Qed.

Lemma demo_rotation_valid : @rotation_valid demo_lib.
Proof.
  intros n g M HM. cbn in HM.
  apply elem_of_replicate in HM as [-> _]. exact is_rotation_eye3.
Qed.

(** ** Geometry of one sampled position *)

Lemma sqrt_unit_interval u : 0 <= u <= 1 -> 0 <= sqrt u <= 1.
Proof.
  intros [H0 H1]. split; [apply sqrt_pos |].
  rewrite <- sqrt_1. now apply sqrt_le_1_alt.
Qed.

(** The distance of [(r cos t, r sin t)] from the axis is [r]. *)
Lemma polar_radius r t :
  0 <= r -> sqrt ((r * cos t) ^ 2 + (r * sin t) ^ 2) = r.
Proof.
  intros Hr.
  replace ((r * cos t) ^ 2 + (r * sin t) ^ 2)
    with (r * r * (Rsqr (sin t) + Rsqr (cos t))) by (unfold Rsqr; ring).
  rewrite sin2_cos2, Rmult_1_r. now apply sqrt_square.
Qed.

Lemma sampled_pose_translation max_radius M u v z :
  translation (sampled_pose max_radius M u v z)
    = (max_radius * sqrt u * cos (2 * PI * v),
       max_radius * sqrt u * sin (2 * PI * v), z).
Proof. reflexivity. Qed.

Lemma sampled_pose_rot_block max_radius M u v z :
  rot_block (sampled_pose max_radius M u v z) = M.
Proof. now destruct M. Qed.

Lemma sampled_pose_bottom_row max_radius M u v z :
  bottom_row (sampled_pose max_radius M u v z) = (0, 0, 0, 1).
Proof. reflexivity. Qed.

(** ** get_evaluation_poses: the claims *)

(** C1: the positions follow the disk law.  Whenever get_evaluation_poses
    returns, the position of row [i] is [(r * cos theta, r * sin theta, z_i)]
    with radius [r = max_radius * sqrt u_i] (the square root is there) and
    angle [theta = 2 * PI * v_i], which lies in [0, 2 * PI], where [u_i] and
    [v_i] are the [i]-th entries of two draws of [uniform 0 1] and [z_i]
    that of a draw of [uniform 0 max_z].  And it returns for [n_samples >= 0]
    and [max_z >= 0], with a seed numpy takes (one that is not negative). *)
Theorem get_evaluation_poses_position_law `{L : RandomLib}
    (max_radius max_z : R) (n_samples seed : Z) :
  uniform_shape -> rotation_shape -> uniform_range ->
  (forall tfs,
     get_evaluation_poses max_radius max_z n_samples seed = Ok tfs ->
     exists d,
       sampler_draws max_z n_samples seed = Some d /\
       (exists g g', uniform 0 1 (Z.to_nat n_samples) g = Some (d_u d, g')) /\
       (exists g g', uniform 0 1 (Z.to_nat n_samples) g = Some (d_v d, g')) /\
       (exists g g', uniform 0 max_z (Z.to_nat n_samples) g = Some (d_z d, g')) /\
       length tfs = Z.to_nat n_samples /\
       forall i T, tfs !! i = Some T ->
         exists ui vi zi,
           d_u d !! i = Some ui /\ d_v d !! i = Some vi /\ d_z d !! i = Some zi /\
           0 <= ui <= 1 /\
           let r := max_radius * sqrt ui in
           let theta := 2 * PI * vi in
           0 <= theta <= 2 * PI /\
           translation T = (r * cos theta, r * sin theta, zi)) /\
  (default_rng_accepts -> uniform_accepts ->
   (0 <= n_samples)%Z -> (0 <= seed)%Z -> 0 <= max_z ->
   exists tfs, get_evaluation_poses max_radius max_z n_samples seed = Ok tfs).
Proof.
  intros Hunif Hrot Hrange. split.
  - intros tfs Hrun.
    destruct (get_evaluation_poses_rows _ _ _ _ _ Hunif Hrot Hrun)
      as (d & Hd & _ & Hlen & _ & Hu & Hv & Hz & Hrows).
    exists d. repeat (split; [assumption |]).
    intros i T HT.
    destruct (Hrows i T HT) as (M & ui & vi & zi & _ & Hui & Hvi & Hzi & ->).
    exists ui, vi, zi. repeat (split; [assumption |]).
    assert (Ru : 0 <= ui <= 1).
    { destruct Hu as (g & g' & Hg).
      apply (Hrange 0 1 _ _ _ _ ui) in Hg; [exact Hg | lra |].
      now apply list_elem_of_lookup_2 with i. }
    assert (Rv : 0 <= vi <= 1).
    { destruct Hv as (g & g' & Hg).
      apply (Hrange 0 1 _ _ _ _ vi) in Hg; [exact Hg | lra |].
      now apply list_elem_of_lookup_2 with i. }
    split; [exact Ru |]. cbv zeta.
    split; [| apply sampled_pose_translation].
    pose proof PI_RGT_0. split; nra.
  - intros Hseed Hacc Hn Hs Hz.
    now apply get_evaluation_poses_returns.
Qed.

Lemma get_evaluation_poses_position_law_witness :
  exists tfs,
    get_evaluation_poses (L := demo_lib) (8 / 10) (12 / 10) 2 27 = Ok tfs /\
    exists d,
      sampler_draws (L := demo_lib) (12 / 10) 2 27 = Some d /\
      length tfs = 2%nat /\
      forall i T, tfs !! i = Some T ->
        exists ui vi zi,
          d_u d !! i = Some ui /\ d_v d !! i = Some vi /\ d_z d !! i = Some zi /\
          0 <= ui <= 1 /\
          let r := 8 / 10 * sqrt ui in
          let theta := 2 * PI * vi in
          0 <= theta <= 2 * PI /\
          translation T = (r * cos theta, r * sin theta, zi).
Proof.
  destruct (@get_evaluation_poses_position_law demo_lib (8 / 10) (12 / 10) 2 27
              demo_uniform_shape demo_rotation_shape demo_uniform_range)
    as [Hlaw Hret].
  destruct (Hret demo_default_rng_accepts demo_uniform_accepts) as [tfs Hrun];
    [lia | lia | lra |].
  exists tfs. split; [exact Hrun |].
  destruct (Hlaw tfs Hrun) as (d & Hd & _ & _ & _ & Hlen & Hrows).
  exists d. auto.
Defined.

(** C3: for [n_samples >= 0], with a seed and a height numpy takes (neither
    negative), get_evaluation_poses returns exactly [n_samples] poses; for
    [n_samples = 0] it returns the empty array and raises nothing. *)
Theorem get_evaluation_poses_count `{L : RandomLib}
    (max_radius max_z : R) (n_samples seed : Z) :
  default_rng_accepts -> uniform_accepts -> uniform_shape -> rotation_shape ->
  (0 <= n_samples)%Z -> (0 <= seed)%Z -> 0 <= max_z ->
  exists tfs,
    get_evaluation_poses max_radius max_z n_samples seed = Ok tfs /\
    Z.of_nat (length tfs) = n_samples /\
    (n_samples = 0%Z -> tfs = []).
Proof.
  intros Hseed Hacc Hunif Hrot Hn Hs Hz.
  destruct (get_evaluation_poses_returns max_radius max_z n_samples seed
              Hseed Hacc Hunif Hrot Hn Hs Hz) as [tfs Hrun].
  destruct (get_evaluation_poses_rows _ _ _ _ _ Hunif Hrot Hrun)
    as (_ & _ & _ & Hlen & _).
  exists tfs. split; [exact Hrun |]. split; [lia |].
  intros ->. now destruct tfs.
Qed.

Lemma get_evaluation_poses_count_witness :
  exists tfs,
    get_evaluation_poses (L := demo_lib) (8 / 10) (12 / 10) 0 27 = Ok tfs /\
    Z.of_nat (length tfs) = 0%Z /\
    (0%Z = 0%Z -> tfs = []).
Proof.
  apply (@get_evaluation_poses_count demo_lib (8 / 10) (12 / 10) 0 27
           demo_default_rng_accepts demo_uniform_accepts
           demo_uniform_shape demo_rotation_shape);
    [lia | lia | lra].
Defined.

(** C4: for [max_radius >= 0] and [max_z >= 0], every pose that
    get_evaluation_poses returns has its position inside the cylinder:
    [sqrt (x^2 + y^2) <= max_radius] and [0 <= z <= max_z]; so
    [max_radius = 0] forces [x = y = 0] and [max_z = 0] forces [z = 0].  And
    it returns for [n_samples >= 0] with a seed numpy takes. *)
Theorem get_evaluation_poses_in_cylinder `{L : RandomLib}
    (max_radius max_z : R) (n_samples seed : Z) :
  uniform_shape -> rotation_shape -> uniform_range ->
  0 <= max_radius -> 0 <= max_z ->
  (forall tfs,
     get_evaluation_poses max_radius max_z n_samples seed = Ok tfs ->
     forall T, T ∈ tfs ->
       let '(x, y, z) := translation T in
       sqrt (x ^ 2 + y ^ 2) <= max_radius /\
       0 <= z <= max_z /\
       (max_radius = 0 -> x = 0 /\ y = 0) /\
       (max_z = 0 -> z = 0)) /\
  (default_rng_accepts -> uniform_accepts ->
   (0 <= n_samples)%Z -> (0 <= seed)%Z ->
   exists tfs, get_evaluation_poses max_radius max_z n_samples seed = Ok tfs).
Proof.
  intros Hunif Hrot Hrange HR HZ. split.
  - intros tfs Hrun T HT.
    destruct (get_evaluation_poses_rows _ _ _ _ _ Hunif Hrot Hrun)
      as (d & _ & _ & _ & _ & Hu & _ & Hz & Hrows).
    apply list_elem_of_lookup_1 in HT as [i HT].
    destruct (Hrows i T HT) as (M & ui & vi & zi & _ & Hui & _ & Hzi & ->).
    rewrite sampled_pose_translation.
    assert (Ru : 0 <= ui <= 1).
    { destruct Hu as (g & g' & Hg).
      apply (Hrange 0 1 _ _ _ _ ui) in Hg; [exact Hg | lra |].
      now apply list_elem_of_lookup_2 with i. }
    assert (Rz : 0 <= zi <= max_z).
    { destruct Hz as (g & g' & Hg).
      apply (Hrange 0 max_z _ _ _ _ zi) in Hg; [exact Hg | lra |].
      now apply list_elem_of_lookup_2 with i. }
    pose proof (sqrt_unit_interval ui Ru) as Rs.
    assert (Rr : 0 <= max_radius * sqrt ui <= max_radius) by nra.
    split; [| split; [exact Rz | split]].
    + rewrite polar_radius; lra.
    + intros ->. split; ring.
    + intros ->. lra.
  - intros Hseed Hacc Hn Hs.
    now apply get_evaluation_poses_returns.
Qed.

Lemma get_evaluation_poses_in_cylinder_witness :
  exists tfs,
    get_evaluation_poses (L := demo_lib) (8 / 10) 0 2 27 = Ok tfs /\
    forall T, T ∈ tfs ->
      let '(x, y, z) := translation T in
      sqrt (x ^ 2 + y ^ 2) <= 8 / 10 /\
      0 <= z <= 0 /\
      (8 / 10 = 0 -> x = 0 /\ y = 0) /\
      (0 = 0 -> z = 0).
Proof.
  destruct (@get_evaluation_poses_in_cylinder demo_lib (8 / 10) 0 2 27
              demo_uniform_shape demo_rotation_shape demo_uniform_range)
    as [Hin Hret]; [lra | lra |].
  destruct (Hret demo_default_rng_accepts demo_uniform_accepts) as [tfs Hrun];
    [lia | lia |].
  exists tfs. split; [exact Hrun | exact (Hin tfs Hrun)].
Defined.

(** C5: every pose that get_evaluation_poses returns is a homogeneous
    transform: its upper-left (3, 3) block is the rotation matrix scipy gave
    for that row, orthonormal with determinant 1; its upper-right column
    holds the sampled position; its bottom row is [0, 0, 0, 1].  And it
    returns for [n_samples >= 0] and [max_z >= 0] with a seed numpy takes. *)
Theorem get_evaluation_poses_homogeneous `{L : RandomLib}
    (max_radius max_z : R) (n_samples seed : Z) :
  uniform_shape -> rotation_shape -> rotation_valid ->
  (forall tfs,
     get_evaluation_poses max_radius max_z n_samples seed = Ok tfs ->
     exists d,
       sampler_draws max_z n_samples seed = Some d /\
       forall i T, tfs !! i = Some T ->
         d_rots d !! i = Some (rot_block T) /\
         is_rotation (rot_block T) /\
         (exists ui vi zi,
            d_u d !! i = Some ui /\ d_v d !! i = Some vi /\ d_z d !! i = Some zi /\
            translation T = (max_radius * sqrt ui * cos (2 * PI * vi),
                             max_radius * sqrt ui * sin (2 * PI * vi), zi)) /\
         bottom_row T = (0, 0, 0, 1)) /\
  (default_rng_accepts -> uniform_accepts ->
   (0 <= n_samples)%Z -> (0 <= seed)%Z -> 0 <= max_z ->
   exists tfs, get_evaluation_poses max_radius max_z n_samples seed = Ok tfs).
Proof.
  intros Hunif Hrot Hvalid. split.
  - intros tfs Hrun.
    destruct (get_evaluation_poses_rows _ _ _ _ _ Hunif Hrot Hrun)
      as (d & Hd & _ & _ & Hr & _ & _ & _ & Hrows).
    exists d. split; [exact Hd |].
    intros i T HT.
    destruct (Hrows i T HT) as (M & ui & vi & zi & HM & Hui & Hvi & Hzi & ->).
    rewrite sampled_pose_rot_block.
    split; [exact HM |]. split; [| split].
    + destruct Hr as [g Hg]. apply (Hvalid (Z.to_nat n_samples) g).
      rewrite <- Hg. now apply list_elem_of_lookup_2 with i.
    + exists ui, vi, zi. repeat (split; [assumption |]).
      apply sampled_pose_translation.
    + apply sampled_pose_bottom_row.
  - intros Hseed Hacc Hn Hs Hz.
    now apply get_evaluation_poses_returns.
Qed.

Lemma get_evaluation_poses_homogeneous_witness :
  exists tfs,
    get_evaluation_poses (L := demo_lib) (8 / 10) (12 / 10) 2 27 = Ok tfs /\
    length tfs = 2%nat /\
    forall i T, tfs !! i = Some T ->
      is_rotation (rot_block T) /\ bottom_row T = (0, 0, 0, 1).
Proof.
  destruct (@get_evaluation_poses_homogeneous demo_lib (8 / 10) (12 / 10) 2 27
              demo_uniform_shape demo_rotation_shape demo_rotation_valid)
    as [Hhom Hret].
  destruct (Hret demo_default_rng_accepts demo_uniform_accepts) as [tfs Hrun];
    [lia | lia | lra |].
  exists tfs. split; [exact Hrun |].
  split.
  - now destruct (get_evaluation_poses_rows _ _ _ _ _
                    demo_uniform_shape demo_rotation_shape Hrun)
      as (_ & _ & _ & Hlen & _).
  - destruct (Hhom tfs Hrun) as (d & _ & Hrows).
    intros i T HT. destruct (Hrows i T HT) as (_ & Hrotation & _ & Hbottom). auto.
Defined.

(** * The sampler and the generator objects *)

Section HeapFacts.
Context {L : RandomLib}.

(** A draw from an object the heap holds at state [g]: the outcome is that
    of the draw on [g], and the object is the only one that changes. *)
Lemma py_draw_insert {A : Type} (draw : Generator -> option (A * Generator))
    (rng : nat) (g : Generator) (h : rng_heap) :
  py_draw draw rng (<[rng := g]> h) =
    match draw g with
    | Some (a, g') => (Ok a, <[rng := g']> h)
    | None => (Raise ValueError, <[rng := g]> h)
    end.
Proof.
  unfold py_draw, rng_heap. rewrite lookup_insert_eq.
  destruct (draw g) as [[a g']|]; [| reflexivity].
  now rewrite insert_insert_eq.
Qed.

(** The object made by [default_rng] is none of those that were there. *)
Lemma fresh_object_frame (h : rng_heap) (g' : Generator) k g :
  h !! k = Some g -> <[fresh (dom h) := g']> h !! k = Some g.
Proof.
  unfold rng_heap in *. intros Hk. rewrite lookup_insert_ne; [exact Hk |].
  intros <-. apply (is_fresh (dom h)). apply elem_of_dom. now exists g.
Qed.

(** The run is over: the heap differs from the first one in the new object. *)
Ltac heap_done :=
  eexists; split; [reflexivity | apply fresh_object_frame].

(** A run on the heap: the outcome is that of the function with the state
    of its generator passed from draw to draw, whatever the heap holds, and
    the objects of the heap are left as they were. *)
Lemma get_evaluation_poses_on_heap_run max_radius max_z n_samples seed
    (h : rng_heap) :
  exists h',
    get_evaluation_poses_on_heap max_radius max_z n_samples seed h
      = (get_evaluation_poses max_radius max_z n_samples seed, h') /\
    forall k g, h !! k = Some g -> h' !! k = Some g.
Proof.
  unfold get_evaluation_poses_on_heap, get_evaluation_poses,
    py_default_rng, py_uniform, py_Rotation_random, hio_bind, hio_lift, hio_ret,
    or_ValueError.
  cbv zeta.
  destruct (default_rng seed) as [g0|]; [| now exists h].
  cbn [mbind result_bind].
  destruct (np_full n_samples eye4) as [a0|e]; cbn [mbind result_bind];
    [| heap_done].
  rewrite py_draw_insert.
  destruct (Rotation_random (Z.to_nat n_samples) g0) as [rot g1].
  destruct (assign_axis0 set_rot a0 (as_matrix rot)) as [a1|e];
    cbn [mbind result_bind]; [| heap_done].
  rewrite py_draw_insert.
  destruct (uniform 0 1 (Z.to_nat n_samples) g1) as [[u g2]|];
    cbn [mbind result_bind]; [| heap_done].
  rewrite py_draw_insert.
  destruct (uniform 0 1 (Z.to_nat n_samples) g2) as [[v g3]|];
    cbn [mbind result_bind]; [| heap_done].
  destruct (np_mul _ (map cos _)) as [x_pos|e];
    cbn [mbind result_bind]; [| heap_done].
  destruct (np_mul _ (map sin _)) as [y_pos|e];
    cbn [mbind result_bind]; [| heap_done].
  destruct (assign_axis0 set_03 a1 x_pos) as [a2|e];
    cbn [mbind result_bind]; [| heap_done].
  destruct (assign_axis0 set_13 a2 y_pos) as [a3|e];
    cbn [mbind result_bind]; [| heap_done].
  rewrite py_draw_insert.
  destruct (uniform 0 max_z (Z.to_nat n_samples) g3) as [[z g4]|];
    cbn [mbind result_bind]; [| heap_done].
  destruct (assign_axis0 set_23 a3 z) as [a4|e];
    cbn [mbind result_bind mret result_ret]; heap_done.
Qed.

End HeapFacts.

(** C6: the sampler is deterministic.  Two runs of get_evaluation_poses
    with the same (seed, n_samples, max_radius, max_z) have the same outcome
    (the same Pose Set, or the same exception), whatever generator objects
    there are when each run starts and whatever state they and numpy's
    global generator are in: every draw of the function is from the object
    it made with [default_rng(seed)].  That outcome is the one of the
    function with the generator state passed from draw to draw, and a run
    leaves the generators that were there as they were. *)
Theorem get_evaluation_poses_deterministic `{L : RandomLib} :
  forall (max_radius max_z : R) (n_samples seed : Z) (h1 h2 : rng_heap),
    (get_evaluation_poses_on_heap max_radius max_z n_samples seed h1).1
      = (get_evaluation_poses_on_heap max_radius max_z n_samples seed h2).1 /\
    (get_evaluation_poses_on_heap max_radius max_z n_samples seed h1).1
      = get_evaluation_poses max_radius max_z n_samples seed /\
    forall (k : nat) (g : Generator),
      h1 !! k = Some g ->
      (get_evaluation_poses_on_heap max_radius max_z n_samples seed h1).2 !! k
        = Some g.
Proof.
  intros max_radius max_z n_samples seed h1 h2.
  destruct (get_evaluation_poses_on_heap_run max_radius max_z n_samples seed h1)
    as (h1' & -> & Hframe).
  destruct (get_evaluation_poses_on_heap_run max_radius max_z n_samples seed h2)
    as (h2' & -> & _).
  cbn [fst snd]. auto.
Qed.

Lemma get_evaluation_poses_deterministic_witness :
  (get_evaluation_poses_on_heap (L := demo_lib) (8 / 10) (12 / 10) 2 27 ∅).1
    = (get_evaluation_poses_on_heap (L := demo_lib) (8 / 10) (12 / 10) 2 27
         (<[global_state := 5%nat]> (<[3%nat := 1%nat]> ∅))).1 /\
  exists tfs,
    (get_evaluation_poses_on_heap (L := demo_lib) (8 / 10) (12 / 10) 2 27
       (<[global_state := 5%nat]> (<[3%nat := 1%nat]> ∅))).1 = Ok tfs /\
    length tfs = 2%nat.
Proof.
  split.
  - exact (proj1 (@get_evaluation_poses_deterministic demo_lib (8 / 10) (12 / 10)
                    2%Z 27%Z ∅ (<[global_state := 5%nat]> (<[3%nat := 1%nat]> ∅)))).
  - rewrite (proj1 (proj2 (@get_evaluation_poses_deterministic demo_lib (8 / 10) (12 / 10)
                             2%Z 27%Z (<[global_state := 5%nat]> (<[3%nat := 1%nat]> ∅))
                             ∅))).
    eexists. split; [reflexivity | reflexivity].
Defined.

(** * Proofs: computations and their traces *)

Section ProgramFacts.
Context {L : RandomLib} {C : Collab}.

Lemma io_bind_inv {A B : Type} (m : io A) (f : A -> io B) w t w' r :
  (m ≫= f) w = (t, w', r) ->
  (exists t1 w1 a t2,
     m w = (t1, w1, Ok a) /\ f a w1 = (t2, w', r) /\ t = t1 ++ t2) \/
  (exists e, m w = (t, w', Raise e) /\ r = Raise e).
Proof.
  unfold mbind, io_bind. destruct (m w) as [[t1 w1] [a|e]] eqn:E1.
  - destruct (f a w1) as [[t2 w2] r2] eqn:E2. intros [= <- <- <-].
    left. exists t1, w1, a, t2. auto.
  - intros [= <- <- <-]. right. exists e. auto.
Qed.

Lemma ik_calls_app (t1 t2 : list event) :
  ik_calls (t1 ++ t2) = ik_calls t1 ++ ik_calls t2.
Proof.
  induction t1 as [|ev t1 IH]; [reflexivity |].
  destruct ev; cbn; now rewrite ?IH.
Qed.

Lemma tf_calls_app (t1 t2 : list event) :
  tf_calls (t1 ++ t2) = tf_calls t1 ++ tf_calls t2.
Proof.
  induction t1 as [|ev t1 IH]; [reflexivity |].
  destruct ev; cbn; now rewrite ?IH.
Qed.

Lemma all_returned_app (t1 t2 : list event) :
  all_returned (t1 ++ t2) <-> all_returned t1 /\ all_returned t2.
Proof. apply Forall_app. Qed.

(** ** One turn of the loop *)

Lemma evaluate_ik_body_run threshold iterations seed tfs reach k tf w t w' r :
  tfs !! k = Some tf -> (k < length reach)%nat ->
  evaluate_ik_body threshold iterations seed (Frame tfs reach) k w = (t, w', r) ->
  match r with
  | Ok fr =>
      exists pos quat sln w1,
        tf_to_pos_quat tf w = (Ok (pos, quat), w1) /\
        inverse_kinematics pos quat threshold iterations seed w1 = (Ok sln, w') /\
        t = [EvTfToPosQuat tf (Ok (pos, quat));
             EvIK pos quat threshold iterations seed (Ok sln)] /\
        fr = Frame (<[k := tf_to_pos_quat_view tf w]> tfs)
               (<[k := is_not_None sln]> reach)
  | Raise e => failing_step threshold iterations seed tf w t e w'
  end.
Proof.
  intros Htf Hk.
  unfold evaluate_ik_body, mbind, io_bind, mret, io_ret, lift, attr, call,
    getitem, setitem.
  cbn [tfs_ee reachable_by_ik]. rewrite Htf.
  destruct (tf_to_pos_quat tf w) as [[[pos quat]|e] w1] eqn:E1.
  - destruct (inverse_kinematics pos quat threshold iterations seed w1)
      as [[sln|e] w2] eqn:E2.
    + destruct (decide (k < length reach)%nat) as [_|Hno]; [| lia].
      cbn. intros [= <- <- <-]. exists pos, quat, sln, w1. auto.
    + cbn. intros [= <- <- <-]. now apply failing_ik with w1.
  - cbn. intros [= <- <- <-]. now apply failing_tf.
Qed.

(** ** The loop *)

(** The loop from index [k] on, [m] poses to go, on a pose array [cur] that
    still has the rows of [tfs] from [k] on: either every call returns, the
    verdicts of rows [k..] are those of the solver and these rows hold what
    the conversions left in them, the rows before [k] being as they were; or
    the run is cut at the first call that raises. *)
Lemma evaluate_ik_loop threshold iterations seed tfs m :
  forall k cur reach w t w' r,
    (k + m = length tfs)%nat ->
    length cur = length tfs -> drop k cur = drop k tfs ->
    length reach = length tfs ->
    for_each (seq k m) (evaluate_ik_body threshold iterations seed)
      (Frame cur reach) w = (t, w', r) ->
    match r with
    | Ok fr =>
        length (tfs_ee fr) = length tfs /\
        take k (tfs_ee fr) = take k cur /\
        Forall2 row_written (drop k tfs) (drop k (tfs_ee fr)) /\
        exists vs,
          ok_steps threshold iterations seed w (drop k tfs) t vs w' /\
          reachable_by_ik fr = take k reach ++ vs
    | Raise e =>
        exists done tf rest t1 vs1 wm t2,
          drop k tfs = done ++ tf :: rest /\
          ok_steps threshold iterations seed w done t1 vs1 wm /\
          failing_step threshold iterations seed tf wm t2 e w' /\
          t = t1 ++ t2
    end.
Proof.
  induction m as [|m IH]; intros k cur reach w t w' r Hk Hcur Hdrop Hlen Hrun.
  - cbn in Hrun. injection Hrun as <- <- <-. cbn [tfs_ee reachable_by_ik].
    split; [exact Hcur |]. split; [reflexivity |].
    rewrite (drop_ge tfs) by lia. rewrite (drop_ge cur) by lia.
    split; [constructor |]. exists [].
    rewrite take_ge by lia.
    split; [constructor | now rewrite app_nil_r].
  - cbn [seq for_each] in Hrun.
    assert (Hlt : (k < length tfs)%nat) by lia.
    destruct (lookup_lt_is_Some_2 tfs k Hlt) as [tf Htf].
    assert (Hcurk : cur !! k = Some tf).
    { rewrite <- (Nat.add_0_r k), <- lookup_drop, Hdrop, lookup_drop.
      now rewrite Nat.add_0_r. }
    assert (Hdrop' : drop (S k) cur = drop (S k) tfs).
    { apply (f_equal (drop 1)) in Hdrop. rewrite !drop_drop in Hdrop.
      now rewrite !Nat.add_1_r in Hdrop. }
    rewrite (drop_S _ _ _ Htf).
    apply io_bind_inv in Hrun
      as [(t1 & w1 & fr1 & t2 & Hbody & Hrest & ->) | (e & Hbody & ->)].
    + apply (evaluate_ik_body_run _ _ _ _ _ _ tf) in Hbody; [| assumption | lia].
      destruct Hbody as (pos & quat & sln & wa & Etf & Eik & -> & ->).
      apply IH in Hrest;
        [| lia | now rewrite length_insert
         | now rewrite drop_insert_lt by lia | now rewrite length_insert].
      destruct r as [fr|e].
      * destruct Hrest as (Hfr & Htake & Hrows & vs & Hsteps & Hreach).
        assert (Hrowk : tfs_ee fr !! k = Some (tf_to_pos_quat_view tf w)).
        { rewrite <- (lookup_take_lt _ (S k)) by lia. rewrite Htake.
          rewrite lookup_take_lt by lia.
          apply list_lookup_insert_eq. lia. }
        split; [exact Hfr |]. split; [| split].
        -- apply (f_equal (take k)) in Htake.
           rewrite !take_take, Nat.min_l in Htake by lia.
           now rewrite take_insert_ge in Htake by lia.
        -- rewrite (drop_S _ _ _ Hrowk).
           constructor; [now exists w | exact Hrows].
        -- exists (is_not_None sln :: vs). split.
           ++ now apply ok_steps_cons with wa w1.
           ++ rewrite Hreach.
              rewrite (take_S_r _ _ (is_not_None sln))
                by (apply list_lookup_insert_eq; lia).
              rewrite take_insert_ge by lia. now rewrite <- app_assoc.
      * destruct Hrest as (done & tf' & rest & ta & vsa & wm & tb
                           & Hdrop2 & Hsteps & Hfail & ->).
        exists (tf :: done), tf', rest,
          (EvTfToPosQuat tf (Ok (pos, quat))
             :: EvIK pos quat threshold iterations seed (Ok sln) :: ta),
          (is_not_None sln :: vsa), wm, tb.
        split; [now rewrite Hdrop2 |]. split; [| split; [exact Hfail | reflexivity]].
        now apply ok_steps_cons with wa w1.
    + apply (evaluate_ik_body_run _ _ _ _ _ _ tf) in Hbody; [| assumption | lia].
      exists [], tf, (drop (S k) tfs), [], [], w, t.
      split; [reflexivity |]. split; [constructor |]. split; [exact Hbody | reflexivity].
Qed.

(** What a run of evaluate_ik looks like.  When it returns, each row of the
    pose array holds what the conversion of that row left in it. *)
Lemma evaluate_ik_frame_run tfs threshold iterations seed w t w' r :
  evaluate_ik_frame tfs threshold iterations seed w = (t, w', r) ->
  match r with
  | Ok fr =>
      Forall2 row_written tfs (tfs_ee fr) /\
      ok_steps threshold iterations seed w tfs t (reachable_by_ik fr) w'
  | Raise e =>
      exists done tf rest t1 vs1 wm t2,
        tfs = done ++ tf :: rest /\
        ok_steps threshold iterations seed w done t1 vs1 wm /\
        failing_step threshold iterations seed tf wm t2 e w' /\
        t = t1 ++ t2
  end.
Proof.
  unfold evaluate_ik_frame. intros Hrun.
  apply (evaluate_ik_loop _ _ _ tfs) in Hrun;
    [| lia | reflexivity | reflexivity | apply length_replicate].
  destruct r as [fr|e]; [| exact Hrun].
  destruct Hrun as (_ & _ & Hrows & vs & Hsteps & Hreach).
  cbn in Hreach. rewrite Hreach. auto.
Qed.


Lemma evaluate_ik_run tfs threshold iterations seed w t w' r :
  evaluate_ik tfs threshold iterations seed w = (t, w', r) ->
  match r with
  | Ok vs => ok_steps threshold iterations seed w tfs t vs w'
  | Raise e =>
      exists done tf rest t1 vs1 wm t2,
        tfs = done ++ tf :: rest /\
        ok_steps threshold iterations seed w done t1 vs1 wm /\
        failing_step threshold iterations seed tf wm t2 e w' /\
        t = t1 ++ t2
  end.
Proof.
  unfold evaluate_ik. intros Hrun.
  apply io_bind_inv in Hrun
    as [(t1 & w1 & fr & t2 & Hframe & Hret & ->) | (e & Hframe & ->)];
    apply evaluate_ik_frame_run in Hframe.
  - injection Hret as <- <- <-. rewrite app_nil_r. apply Hframe.
  - exact Hframe.
Qed.

(** ** Reading the trace of a run *)

Lemma ok_steps_facts threshold iterations seed w tfs t vs w' :
  ok_steps threshold iterations seed w tfs t vs w' ->
  length vs = length tfs /\
  length (ik_calls t) = length tfs /\
  length (tf_calls t) = length tfs /\
  all_returned t /\
  forall i tf, tfs !! i = Some tf ->
    exists pos quat sln wa wb wc,
      tf_to_pos_quat tf wa = (Ok (pos, quat), wb) /\
      inverse_kinematics pos quat threshold iterations seed wb = (Ok sln, wc) /\
      tf_calls t !! i = Some (tf, Ok (pos, quat)) /\
      ik_calls t !! i = Some (IkCall pos quat threshold iterations seed (Ok sln)) /\
      vs !! i = Some (is_not_None sln).
Proof.
  induction 1 as [w | w w1 w2 w' tf pos quat sln tfs t vs Etf Eik Hsteps IH].
  - repeat split; try reflexivity; [constructor | intros i tf [=]].
  - destruct IH as (Hvs & Hik & Htf & Hret & Hrows). cbn.
    repeat split; try (f_equal; assumption).
    + repeat constructor. exact Hret.
    + intros [|i] tf' Hlook.
      * injection Hlook as <-. exists pos, quat, sln, w, w1, w2. auto.
      * apply Hrows in Hlook. exact Hlook.
Qed.

Lemma failing_step_facts threshold iterations seed tf w t e w' :
  failing_step threshold iterations seed tf w t e w' ->
  exists t0 ev,
    t = t0 ++ [ev] /\ all_returned t0 /\ event_raised ev = true /\
    (length (ik_calls t) <= 1)%nat /\
    (forall c, ik_calls t = [c] ->
       tf_calls t = [(tf, Ok (ik_pos c, ik_quat c))] /\
       ik_threshold c = threshold /\ ik_trials c = iterations /\
       ik_seed c = seed /\ ik_outcome c = Raise e) /\
    (length (tf_calls t) = 1)%nat /\
    ik_calls t0 = [] /\
    (forall pos quat th it s r, ev = EvIK pos quat th it s r ->
       r = Raise e /\ tf_calls t0 = [(tf, Ok (pos, quat))] /\
       th = threshold /\ it = iterations /\ s = seed /\
       exists wa wb, inverse_kinematics pos quat th it s wa = (Raise e, wb)).
Proof.
  destruct 1 as [w w1 e Etf | w w1 w2 pos quat e Etf Eik].
  - exists [], (EvTfToPosQuat tf (Raise e)). cbn.
    repeat split; try (repeat constructor; fail); intros; discriminate.
  - exists [EvTfToPosQuat tf (Ok (pos, quat))],
      (EvIK pos quat threshold iterations seed (Raise e)). cbn.
    split; [reflexivity |]. split; [repeat constructor |].
    split; [reflexivity |]. split; [lia |].
    split; [intros c [= <-]; auto |]. split; [reflexivity |].
    split; [reflexivity |].
    intros ? ? ? ? ? ? [= <- <- <- <- <- <-].
    repeat (split; [reflexivity |]). now exists w1, w2.
Qed.

Lemma ok_steps_ik_lookup threshold iterations seed w tfs t vs w' i c :
  ok_steps threshold iterations seed w tfs t vs w' ->
  ik_calls t !! i = Some c ->
  exists tf sln,
    tfs !! i = Some tf /\
    tf_calls t !! i = Some (tf, Ok (ik_pos c, ik_quat c)) /\
    c = IkCall (ik_pos c) (ik_quat c) threshold iterations seed (Ok sln) /\
    vs !! i = Some (is_not_None sln).
Proof.
  intros Hsteps Hc.
  destruct (ok_steps_facts _ _ _ _ _ _ _ _ Hsteps) as (_ & Hlen & _ & _ & Hrows).
  assert (Hi : (i < length tfs)%nat)
    by (rewrite <- Hlen; now apply lookup_lt_Some with c).
  destruct (lookup_lt_is_Some_2 tfs i Hi) as [tf Htf].
  destruct (Hrows i tf Htf) as (pos & quat & sln & _ & _ & _ & _ & _ & Ht & Hik & Hv).
  rewrite Hik in Hc. injection Hc as <-. cbn.
  exists tf, sln. auto.
Qed.

(** The solver invocations of any run, returned or aborted: the [i]-th one
    is on what the [i]-th conversion gave for pose [i], with the threshold,
    the trial budget and the seed that evaluate_ik was given. *)
Lemma evaluate_ik_calls tfs threshold iterations seed w t w' r :
  evaluate_ik tfs threshold iterations seed w = (t, w', r) ->
  (length (ik_calls t) <= length tfs)%nat /\
  (length (tf_calls t) <= length tfs)%nat /\
  forall i c, ik_calls t !! i = Some c ->
    exists tf,
      tfs !! i = Some tf /\
      tf_calls t !! i = Some (tf, Ok (ik_pos c, ik_quat c)) /\
      ik_threshold c = threshold /\ ik_trials c = iterations /\
      ik_seed c = seed.
Proof.
  intros Hrun. apply evaluate_ik_run in Hrun. destruct r as [vs|e].
  - destruct (ok_steps_facts _ _ _ _ _ _ _ _ Hrun) as (_ & Hik & Htf & _).
    split; [lia |]. split; [lia |].
    intros i c Hc.
    destruct (ok_steps_ik_lookup _ _ _ _ _ _ _ _ _ _ Hrun Hc)
      as (tf & sln & Hp & Ht & -> & _).
    exists tf. cbn. auto.
  - destruct Hrun as (done & tf & rest & t1 & vs1 & wm & t2 & -> & Hs & Hf & ->).
    destruct (ok_steps_facts _ _ _ _ _ _ _ _ Hs) as (_ & Hik & Htf & _).
    destruct (failing_step_facts _ _ _ _ _ _ _ _ Hf)
      as (_ & _ & _ & _ & _ & Hik2 & Hone & Htf2 & _).
    rewrite ik_calls_app, tf_calls_app, !length_app. cbn [length].
    split; [lia |]. split; [lia |].
    intros i c Hc. apply lookup_app_Some in Hc as [Hc | [Hge Hc]].
    + destruct (ok_steps_ik_lookup _ _ _ _ _ _ _ _ _ _ Hs Hc)
        as (tf' & sln & Hp & Ht & -> & _).
      exists tf'. cbn.
      split; [now apply lookup_app_l_Some |].
      split; [now apply lookup_app_l_Some | auto].
    + destruct (ik_calls t2) as [|c' [|c'' cs]] eqn:E2; cbn in Hik2; try lia.
      * rewrite lookup_nil in Hc. discriminate.
      * assert (Hi : i = length done).
        { apply lookup_lt_Some in Hc. cbn in Hc. lia. }
        subst i. rewrite Hik, Nat.sub_diag in Hc. injection Hc as <-.
        destruct (Hone c' eq_refl) as (Ht2 & -> & -> & -> & _).
        exists tf. split; [apply list_lookup_middle; reflexivity |].
        split; [| auto].
        rewrite lookup_app_r by lia. rewrite Htf, Nat.sub_diag, Ht2. reflexivity.
Qed.

(** ** The trace of main *)

Lemma call_inv {A : Type} (h : World -> result A * World) ev w t w' r :
  call h ev w = (t, w', r) -> t = [ev r] /\ h w = (r, w').
Proof.
  unfold call. destruct (h w) as [r0 w0]. now intros [= <- <- <-].
Qed.

Lemma non_evaluation_ik_calls (t : list event) :
  non_evaluation t -> ik_calls t = [].
Proof.
  induction 1 as [|ev t Hev _ IH]; [reflexivity |].
  destruct ev; cbn in *; try discriminate; exact IH.
Qed.

(** A list that starts with elements satisfying [P] reaches an element that
    does not satisfy it only after them. *)
Lemma split_after_prefix {A : Type} (P : A -> Prop) (l1 l2 p : list A) x q :
  Forall P l1 -> ~ P x -> l1 ++ l2 = p ++ x :: q ->
  exists p', p = l1 ++ p' /\ l2 = p' ++ x :: q.
Proof.
  intros Hl1 Hx. revert p.
  induction Hl1 as [|a l1 Ha _ IH]; intros p Heq.
  - exists p. auto.
  - destruct p as [|b p]; cbn in Heq; injection Heq as -> Heq.
    + contradiction.
    + destruct (IH p Heq) as (p' & -> & ->). exists p'. auto.
Qed.

Lemma call_non_evaluation {A : Type} (h : World -> result A * World) ev w t w' r :
  (forall x, is_evaluation_event (ev x) = false) ->
  call h ev w = (t, w', r) -> non_evaluation t.
Proof.
  intros Hev Hrun. apply call_inv in Hrun as [-> _].
  constructor; [apply Hev | constructor].
Qed.

Lemma bind_non_evaluation {A B : Type} (m : io A) (f : A -> io B) w t w' r :
  (forall w0 t0 w1 r0, m w0 = (t0, w1, r0) -> non_evaluation t0) ->
  (forall a w0 t0 w1 r0, f a w0 = (t0, w1, r0) -> non_evaluation t0) ->
  (m ≫= f) w = (t, w', r) -> non_evaluation t.
Proof.
  intros Hm Hf Hrun.
  apply io_bind_inv in Hrun
    as [(t1 & w1 & a & t2 & H1 & H2 & ->) | (e & H1 & ->)].
  - apply Forall_app. split; [eapply Hm | eapply Hf]; eassumption.
  - eapply Hm; eassumption.
Qed.

Lemma lift_non_evaluation {A : Type} (x : result A) w t w' r :
  lift x w = (t, w', r) -> non_evaluation t.
Proof. intros [= <- <- <-]. constructor. Qed.

Lemma get_sim_and_robot_non_evaluation robot_type degrees w t w' r :
  get_sim_and_robot robot_type degrees w = (t, w', r) -> non_evaluation t.
Proof.
  unfold get_sim_and_robot.
  apply bind_non_evaluation.
  - intros *. now apply call_non_evaluation.
  - intros _ w0 t0 w1 r0.
    destruct (decide (robot_type = "franka")).
    + apply bind_non_evaluation; [intros *; apply lift_non_evaluation |].
      intros urdf_fn *.
      apply bind_non_evaluation; [intros *; apply lift_non_evaluation |].
      intros _ *. now apply call_non_evaluation.
    + apply bind_non_evaluation; [intros *; apply lift_non_evaluation |].
      intros _ *. now apply call_non_evaluation.
Qed.

(** The trace of main: nothing of the evaluation happens unless the poses
    were sampled and saved; then comes the trace of evaluate_ik on these
    poses, and what follows it is no evaluation either. *)
Lemma main_run args w t w' r :
  main args w = (t, w', r) ->
  non_evaluation t \/
  exists pre w0 w1 poses te we re rest,
    t = pre
        ++ EvSavePoses (path_join (data_dir_of args) "poses.npy") poses (Ok ())
        :: te ++ rest /\
    non_evaluation pre /\ non_evaluation rest /\
    get_evaluation_poses (range_radius w0) (range_z w0)
      (arg_num_samples args) (arg_seed args) = Ok poses /\
    evaluate_ik poses (arg_threshold args) (arg_iterations args) (arg_seed args) w1
      = (te, we, re).
Proof.
  unfold main. cbv zeta. intros H.
  apply io_bind_inv in H as [(t1 & w1 & a1 & t2 & H1 & H & ->) | (e & H1 & ->)];
    [| left; revert H1; now apply call_non_evaluation].
  assert (N1 : non_evaluation t1) by (revert H1; now apply call_non_evaluation).
  apply io_bind_inv in H as [(t2' & w2 & a2 & t3 & H2 & H & ->) | (e & H2 & ->)];
    [| left; apply Forall_app; split;
       [exact N1 | now apply get_sim_and_robot_non_evaluation in H2]].
  apply get_sim_and_robot_non_evaluation in H2 as N2.
  apply io_bind_inv in H as [(t3' & w3 & z_max & t4 & H3 & H & ->) | (e & H3 & ->)];
    [| discriminate H3].
  injection H3 as <- <- <-.
  apply io_bind_inv in H as [(t4' & w4 & radius & t5 & H4 & H & ->) | (e & H4 & ->)];
    [| discriminate H4].
  injection H4 as <- <- <-.
  apply io_bind_inv in H as [(t5' & w5 & poses & t6 & H5 & H & ->) | (e & H5 & ->)];
    [| left; injection H5 as <- <- _;
       rewrite !app_nil_r; apply Forall_app; auto].
  injection H5 as <- <- H5.
  apply io_bind_inv in H as [(t6' & w6 & a6 & t7 & H6 & H & ->) | (e & H6 & ->)];
    [| left; repeat (apply Forall_app; split); auto; try constructor;
       revert H6; now apply call_non_evaluation].
  apply call_inv in H6 as [-> H6]. destruct a6.
  apply io_bind_inv in H as [(te & w7 & vs & t8 & H7 & H & ->) | (e & H7 & ->)].
  - right.
    exists (t1 ++ t2'), w2, w6, poses, te, w7, (Ok vs), t8.
    split; [cbn; now rewrite <- !app_assoc |].
    split; [apply Forall_app; auto |].
    split; [| split; [exact H5 | exact H7]].
    revert H.
    repeat (apply bind_non_evaluation;
            [intros *; now apply call_non_evaluation | intros ? *]).
    now apply call_non_evaluation.
  - right.
    exists (t1 ++ t2'), w2, w6, poses, t7, w', (Raise e), [].
    split; [cbn; now rewrite <- !app_assoc, app_nil_r |].
    split; [apply Forall_app; auto |].
    split; [constructor | split; [exact H5 | exact H7]].
Qed.

(** ** Returning and aborting *)

(** If no call raised, evaluate_ik returned. *)
Lemma evaluate_ik_all_returned tfs threshold iterations seed w t w' r :
  evaluate_ik tfs threshold iterations seed w = (t, w', r) ->
  all_returned t ->
  exists vs, r = Ok vs /\ ok_steps threshold iterations seed w tfs t vs w'.
Proof.
  intros Hrun Hret. apply evaluate_ik_run in Hrun. destruct r as [vs|e].
  - exists vs. auto.
  - destruct Hrun as (done & tf & rest & t1 & vs1 & wm & t2 & _ & _ & Hf & ->).
    destruct (failing_step_facts _ _ _ _ _ _ _ _ Hf)
      as (t0 & ev & -> & _ & Hev & _).
    apply Forall_app in Hret as [_ Hret].
    apply Forall_app in Hret as [_ Hret].
    apply Forall_inv in Hret. congruence.
Qed.

(** A call that raised is the last call of the run, and the run raised. *)
Lemma evaluate_ik_raised tfs threshold iterations seed w t w' r pre ev post :
  evaluate_ik tfs threshold iterations seed w = (t, w', r) ->
  t = pre ++ ev :: post -> event_raised ev = true ->
  post = [] /\ all_returned pre /\
  exists e done tf rest vs1,
    r = Raise e /\ tfs = done ++ tf :: rest /\
    length (ik_calls pre) = length done /\
    length vs1 = length done /\
    (forall i c, ik_calls pre !! i = Some c ->
       exists sln, ik_outcome c = Ok sln /\ vs1 !! i = Some (is_not_None sln)) /\
    (forall pos quat th it s r', ev = EvIK pos quat th it s r' ->
       r' = Raise e /\
       tf_calls pre !! length done = Some (tf, Ok (pos, quat)) /\
       th = threshold /\ it = iterations /\ s = seed /\
       exists wa wb, inverse_kinematics pos quat th it s wa = (Raise e, wb)).
Proof.
  intros Hrun Ht Hev. apply evaluate_ik_run in Hrun. destruct r as [vs|e].
  - destruct (ok_steps_facts _ _ _ _ _ _ _ _ Hrun) as (_ & _ & _ & Hret & _).
    rewrite Ht in Hret. apply Forall_app in Hret as [_ Hret].
    apply Forall_inv in Hret. congruence.
  - destruct Hrun as (done & tf & rest & t1 & vs1 & wm & t2 & -> & Hs & Hf & ->).
    destruct (ok_steps_facts _ _ _ _ _ _ _ _ Hs) as (Hvs & Hik & Htf & Hret & _).
    destruct (failing_step_facts _ _ _ _ _ _ _ _ Hf)
      as (t0 & ev0 & -> & Hret0 & Hev0 & _ & _ & _ & Hik0 & Hlast).
    rewrite app_assoc in Ht.
    apply (split_after_prefix (fun ev => event_raised ev = false)) in Ht
      as (p' & -> & Hp'); [| apply Forall_app; auto | congruence].
    destruct p' as [|x p']; [| destruct p'; discriminate].
    cbn in Hp'. injection Hp' as <- <-. rewrite app_nil_r.
    split; [reflexivity |]. split; [apply Forall_app; auto |].
    exists e, done, tf, rest, vs1.
    split; [reflexivity |]. split; [reflexivity |].
    rewrite ik_calls_app, Hik0, app_nil_r.
    split; [exact Hik |]. split; [exact Hvs |]. split.
    + intros i c Hc.
      destruct (ok_steps_ik_lookup _ _ _ _ _ _ _ _ _ _ Hs Hc)
        as (tf' & sln & _ & _ & -> & Hv).
      exists sln. auto.
    + intros pos quat th it s r' Hev'.
      destruct (Hlast _ _ _ _ _ _ Hev') as (-> & Htf0 & -> & -> & -> & Hw).
      split; [reflexivity |]. split; [| auto].
      rewrite tf_calls_app, lookup_app_r by lia.
      rewrite Htf, Nat.sub_diag, Htf0. reflexivity.
Qed.

End ProgramFacts.

(** * evaluate_ik: the claims *)

(** C2: when no call raises, evaluate_ik returns a boolean array as long as
    the pose array; for every index [i], the solver was invoked on what the
    conversion of pose [i] gave, with the threshold and the trial budget
    passed in, and entry [i] is true exactly when that invocation returned a
    solution and not [None]. *)
Theorem evaluate_ik_verdicts `{C : Collab}
    (tfs : list mat4) (threshold iterations seed : Z) (w : World) :
  all_returned (evaluate_ik tfs threshold iterations seed w).1.1 ->
  exists vs,
    (evaluate_ik tfs threshold iterations seed w).2 = Ok vs /\
    length vs = length tfs /\
    forall i tf, tfs !! i = Some tf ->
      exists pos quat sln wa wb wc,
        tf_to_pos_quat tf wa = (Ok (pos, quat), wb) /\
        inverse_kinematics pos quat threshold iterations seed wb = (Ok sln, wc) /\
        ik_calls (evaluate_ik tfs threshold iterations seed w).1.1 !! i
          = Some (IkCall pos quat threshold iterations seed (Ok sln)) /\
        vs !! i = Some (is_not_None sln) /\
        (vs !! i = Some true <-> exists s, sln = Some s).
Proof.
  intros Hret.
  destruct (evaluate_ik tfs threshold iterations seed w) as [[t w'] r] eqn:Hrun.
  cbn [fst snd] in *.
  destruct (evaluate_ik_all_returned _ _ _ _ _ _ _ _ Hrun Hret) as (vs & -> & Hsteps).
  destruct (ok_steps_facts _ _ _ _ _ _ _ _ Hsteps) as (Hlen & _ & _ & _ & Hrows).
  exists vs. split; [reflexivity |]. split; [exact Hlen |].
  intros i tf Htf.
  destruct (Hrows i tf Htf) as (pos & quat & sln & wa & wb & wc & Ea & Eb & _ & Hc & Hv).
  exists pos, quat, sln, wa, wb, wc.
  repeat (split; [assumption |]).
  rewrite Hv. destruct sln as [s|]; cbn; split.
  - intros _. now exists s.
  - reflexivity.
  - discriminate.
  - intros [s [=]].
Qed.

Lemma evaluate_ik_verdicts_witness :
  all_returned (evaluate_ik (C := demo_collab) demo_poses 25 100 27 0%nat).1.1 /\
  exists vs,
    (evaluate_ik (C := demo_collab) demo_poses 25 100 27 0%nat).2 = Ok vs /\
    length vs = length demo_poses /\
    forall i tf, demo_poses !! i = Some tf ->
      exists pos quat sln wa wb wc,
        tf_to_pos_quat (Collab := demo_collab) tf wa = (Ok (pos, quat), wb) /\
        inverse_kinematics (Collab := demo_collab) pos quat 25 100 27 wb
          = (Ok sln, wc) /\
        ik_calls (evaluate_ik (C := demo_collab) demo_poses 25 100 27 0%nat).1.1 !! i
          = Some (IkCall pos quat 25 100 27 (Ok sln)) /\
        vs !! i = Some (is_not_None sln) /\
        (vs !! i = Some true <-> exists s, sln = Some s).
Proof.
  assert (H : all_returned
                (evaluate_ik (C := demo_collab) demo_poses 25 100 27 0%nat).1.1)
    by (repeat constructor).
  split; [exact H |].
  exact (@evaluate_ik_verdicts demo_collab demo_poses 25 100 27 0%nat H).
Defined.

(** C7: evaluate_ik invokes the solver once per pose, in index order, and
    never again: in any run the [i]-th invocation is on what the [i]-th
    conversion gave for pose [i], so there are at most as many invocations as
    poses; a run in which no call raises, and any run that returns, has
    exactly as many invocations as poses. *)
Theorem evaluate_ik_one_call_per_pose `{C : Collab}
    (tfs : list mat4) (threshold iterations seed : Z) (w : World) :
  let t := (evaluate_ik tfs threshold iterations seed w).1.1 in
  let r := (evaluate_ik tfs threshold iterations seed w).2 in
  (length (ik_calls t) <= length tfs)%nat /\
  (forall i c, ik_calls t !! i = Some c ->
     exists tf,
       tfs !! i = Some tf /\
       tf_calls t !! i = Some (tf, Ok (ik_pos c, ik_quat c)) /\
       ik_threshold c = threshold /\ ik_trials c = iterations) /\
  (forall vs, r = Ok vs -> length (ik_calls t) = length tfs) /\
  (all_returned t -> length (ik_calls t) = length tfs /\ exists vs, r = Ok vs).
Proof.
  destruct (evaluate_ik tfs threshold iterations seed w) as [[t w'] r] eqn:Hrun.
  cbn [fst snd]. cbv zeta.
  destruct (evaluate_ik_calls _ _ _ _ _ _ _ _ Hrun) as (Hle & _ & Hcalls).
  split; [exact Hle |]. split; [| split].
  - intros i c Hc. destruct (Hcalls i c Hc) as (tf & Htf & Hconv & Hth & Hit & _).
    exists tf. auto.
  - intros vs ->. apply evaluate_ik_run in Hrun.
    now destruct (ok_steps_facts _ _ _ _ _ _ _ _ Hrun) as (_ & Hik & _).
  - intros Hret.
    destruct (evaluate_ik_all_returned _ _ _ _ _ _ _ _ Hrun Hret) as (vs & -> & Hsteps).
    destruct (ok_steps_facts _ _ _ _ _ _ _ _ Hsteps) as (_ & Hik & _).
    split; [exact Hik | now exists vs].
Qed.

Lemma evaluate_ik_one_call_per_pose_witness :
  length (ik_calls (evaluate_ik (C := demo_collab) demo_poses 25 100 27 0%nat).1.1)
    = 2%nat.
Proof.
  apply (proj2 (proj2 (proj2
           (@evaluate_ik_one_call_per_pose demo_collab demo_poses 25 100 27 0%nat)))).
  repeat constructor.
Defined.

(** C8: a solver invocation that raises ends the run of evaluate_ik: no
    call follows it, evaluate_ik raises the same exception and returns no
    array, so there is no verdict for the pose at hand nor for a later one.
    The invocation is the first one for its pose: each earlier pose had its
    one invocation, which returned. *)
Theorem evaluate_ik_solver_error_aborts `{C : Collab}
    (tfs : list mat4) (threshold iterations seed : Z) (w : World)
    (pre post : list event) (pos : Pos) (quat : Quat) (th it s : Z) (e : exn) :
  (evaluate_ik tfs threshold iterations seed w).1.1
    = pre ++ EvIK pos quat th it s (Raise e) :: post ->
  (evaluate_ik tfs threshold iterations seed w).2 = Raise e /\
  post = [] /\
  all_returned pre /\
  exists done tf rest,
    tfs = done ++ tf :: rest /\
    length (ik_calls pre) = length done /\
    tf_calls pre !! length done = Some (tf, Ok (pos, quat)) /\
    exists wa wb,
      inverse_kinematics pos quat threshold iterations seed wa = (Raise e, wb).
Proof.
  intros Ht.
  destruct (evaluate_ik tfs threshold iterations seed w) as [[t w'] r] eqn:Hrun.
  cbn [fst snd] in *.
  destruct (evaluate_ik_raised _ _ _ _ _ _ _ _ _ _ _ Hrun Ht eq_refl)
    as (Hpost & Hpre & e' & done & tf & rest & vs1 & -> & Htfs & Hik & _ & _ & Hlast).
  destruct (Hlast _ _ _ _ _ _ eq_refl) as ([= <-] & Hconv & -> & -> & -> & Hw).
  split; [reflexivity |]. split; [exact Hpost |]. split; [exact Hpre |].
  exists done, tf, rest. auto.
Qed.

Lemma evaluate_ik_solver_error_aborts_witness :
  let run := evaluate_ik (C := demo_collab) demo_poses3 25 100 27 0%nat in
  let pos := translation (set_23 eye4 (/ 4)) in
  let quat := rot_block (set_23 eye4 (/ 4)) in
  let e := ExternalError "solver crashed" in
  run.1.1 = take 5 run.1.1 ++ EvIK (C := demo_collab) pos quat 25 100 27 (Raise e) :: [] /\
  run.2 = Raise e /\
  @nil (event (C := demo_collab)) = [] /\
  all_returned (take 5 run.1.1) /\
  exists done tf rest,
    demo_poses3 = done ++ tf :: rest /\
    length (ik_calls (take 5 run.1.1)) = length done /\
    tf_calls (take 5 run.1.1) !! length done = Some (tf, Ok (pos, quat)) /\
    exists wa wb,
      inverse_kinematics (Collab := demo_collab) pos quat 25 100 27 wa = (Raise e, wb).
Proof.
  cbv zeta.
  assert (H : (evaluate_ik (C := demo_collab) demo_poses3 25 100 27 0%nat).1.1
              = take 5 (evaluate_ik (C := demo_collab) demo_poses3 25 100 27 0%nat).1.1
                ++ EvIK (C := demo_collab)
                     (translation (set_23 eye4 (/ 4))) (rot_block (set_23 eye4 (/ 4)))
                     25 100 27 (Raise (ExternalError "solver crashed")) :: [])
    by reflexivity.
  split; [exact H |].
  exact (@evaluate_ik_solver_error_aborts demo_collab demo_poses3 25 100 27 0%nat
           _ _ _ _ _ _ _ _ H).
Defined.

(** * main: the claims *)



(** Nothing in evaluate_ik keeps a conversion from writing: with one that
    writes through the view it is handed, the pose array comes back
    changed. *)
Lemma evaluate_ik_frame_conversion_writes :
  exists fr,
    (evaluate_ik_frame (C := demo_collab_writes) demo_poses3 25 100 27 0%nat).2 = Ok fr /\
    tfs_ee fr = [eye4; set_03 eye4 (/ 2); set_23 (set_23 eye4 (/ 4)) 0] /\
    tfs_ee fr <> demo_poses3.
Proof.
  eexists. split; [reflexivity |]. split; [reflexivity |].
  cbn. intros H. injection H as H. lra.
Qed.

(** C10: every solver invocation of evaluate_ik gets the seed evaluate_ik
    was given; in main this is the seed of the command line, the same value
    that get_evaluation_poses got to sample the poses under evaluation. *)
Theorem evaluate_ik_seed `{L : RandomLib} `{C : Collab} :
  (forall (tfs : list mat4) (threshold iterations seed : Z) (w : World) (c : ik_call),
     c ∈ ik_calls (evaluate_ik tfs threshold iterations seed w).1.1 ->
     ik_seed c = seed) /\
  (forall (args : Args) (w : World) (c : ik_call),
     c ∈ ik_calls (main args w).1.1 ->
     ik_seed c = arg_seed args /\
     exists poses w0 w1,
       get_evaluation_poses (range_radius w0) (range_z w0)
         (arg_num_samples args) (arg_seed args) = Ok poses /\
       c ∈ ik_calls (evaluate_ik poses (arg_threshold args) (arg_iterations args)
                       (arg_seed args) w1).1.1).
Proof.
  assert (Hloop : forall tfs threshold iterations seed w c,
            c ∈ ik_calls (evaluate_ik tfs threshold iterations seed w).1.1 ->
            ik_seed c = seed).
  { intros tfs threshold iterations seed w c Hc.
    destruct (evaluate_ik tfs threshold iterations seed w) as [[t w'] r] eqn:Hrun.
    cbn [fst snd] in Hc.
    destruct (evaluate_ik_calls _ _ _ _ _ _ _ _ Hrun) as (_ & _ & Hcalls).
    apply list_elem_of_lookup_1 in Hc as [i Hc].
    now destruct (Hcalls i c Hc) as (tf & _ & _ & _ & _ & Hseed). }
  split; [exact Hloop |].
  intros args w c Hc.
  destruct (main args w) as [[t w'] r] eqn:Hrun. cbn [fst snd] in Hc.
  apply main_run in Hrun
    as [Hnone | (pre & w0 & w1 & poses & te & we & re & rest
                 & -> & Hpre & Hrest & Hposes & Hte)].
  - rewrite (non_evaluation_ik_calls _ Hnone) in Hc. now apply elem_of_nil in Hc.
  - rewrite ik_calls_app in Hc. cbn [ik_calls] in Hc.
    rewrite ik_calls_app in Hc.
    rewrite (non_evaluation_ik_calls _ Hpre), (non_evaluation_ik_calls _ Hrest) in Hc.
    rewrite app_nil_l, app_nil_r in Hc.
    assert (Hc' : c ∈ ik_calls
                    (evaluate_ik poses (arg_threshold args) (arg_iterations args)
                       (arg_seed args) w1).1.1) by now rewrite Hte.
    split; [now apply Hloop in Hc' |].
    exists poses, w0, w1. auto.
Qed.

Lemma evaluate_ik_seed_witness :
  map ik_seed
    (ik_calls (main (L := demo_lib) (C := demo_collab) demo_args 0%nat).1.1)
    = [arg_seed demo_args; arg_seed demo_args] /\
  forall c,
    c ∈ ik_calls (main (L := demo_lib) (C := demo_collab) demo_args 0%nat).1.1 ->
    ik_seed c = arg_seed demo_args.
Proof.
  split; [reflexivity |].
  intros c Hc.
  exact (proj1 (proj2 (@evaluate_ik_seed demo_lib demo_collab) demo_args 0%nat c Hc)).
Defined.

(** * More on the program: errors, stages, composition *)

Section RunFacts.
Context {L : RandomLib} {C : Collab}.

(** ** Traces of one kind *)

Lemma call_Forall {A : Type} (P : event -> Prop)
    (h : World -> result A * World) ev w t w' r :
  (forall x, P (ev x)) -> call h ev w = (t, w', r) -> Forall P t.
Proof.
  intros Hev Hrun. apply call_inv in Hrun as [-> _].
  constructor; [apply Hev | constructor].
Qed.

Lemma lift_Forall {A : Type} (P : event -> Prop) (x : result A) w t w' r :
  lift x w = (t, w', r) -> Forall P t.
Proof. intros [= <- <- <-]. constructor. Qed.

Lemma bind_Forall {A B : Type} (P : event -> Prop) (m : io A) (f : A -> io B)
    w t w' r :
  (forall w0 t0 w1 r0, m w0 = (t0, w1, r0) -> Forall P t0) ->
  (forall a w0 t0 w1 r0, f a w0 = (t0, w1, r0) -> Forall P t0) ->
  (m ≫= f) w = (t, w', r) -> Forall P t.
Proof.
  intros Hm Hf Hrun.
  apply io_bind_inv in Hrun
    as [(t1 & w1 & a & t2 & H1 & H2 & ->) | (e & H1 & ->)].
  - apply Forall_app. split; [eapply Hm | eapply Hf]; eassumption.
  - eapply Hm; eassumption.
Qed.

(** A call that returned, followed by the rest. *)
Lemma bind_call_Ok {A B : Type} (h : World -> result A * World) ev
    (f : A -> io B) w t w' b :
  (call h ev ≫= f) w = (t, w', Ok b) ->
  exists a w1 t2,
    h w = (Ok a, w1) /\ f a w1 = (t2, w', Ok b) /\ t = ev (Ok a) :: t2.
Proof.
  intros Hrun.
  apply io_bind_inv in Hrun
    as [(t1 & w1 & a & t2 & H1 & H2 & ->) | (e & _ & [=])].
  apply call_inv in H1 as [-> H1]. exists a, w1, t2. auto.
Qed.

(** ** Exceptions in a trace *)

Lemma event_exn_None (ev : event) :
  event_exn ev = None <-> event_raised ev = false.
Proof. destruct ev as [? r|r|? ? r|? r|? ? ? ? ? r|r|? ? r|? ? r|? r]; now destruct r. Qed.

Lemma event_exn_Some (ev : event) e :
  event_exn ev = Some e -> event_raised ev = true.
Proof. destruct ev as [? r|r|? ? r|? r|? ? ? ? ? r|r|? ? r|? ? r|? r]; now destruct r. Qed.

Lemma stops_ret {A : Type} (a : A) : stops_at_first_raise (mret a : io A).
Proof. intros w t w' r [= <- <- <-]. constructor. Qed.

Lemma stops_lift {A : Type} (x : result A) : stops_at_first_raise (lift x).
Proof.
  intros w t w' r [= <- <- <-]. destruct x; [constructor | left; constructor].
Qed.

Lemma stops_attr {A : Type} (f : World -> A) : stops_at_first_raise (attr f).
Proof. intros w t w' r [= <- <- <-]. constructor. Qed.

Lemma stops_call {A : Type} (h : World -> result A * World) ev :
  (forall r, event_exn (ev r) = result_exn r) ->
  stops_at_first_raise (call h ev).
Proof.
  intros Hev w t w' r Hrun. apply call_inv in Hrun as [-> _].
  destruct r as [a|e].
  - constructor; [| constructor].
    apply event_exn_None. now rewrite Hev.
  - right. exists [], (ev (Raise e)).
    split; [reflexivity |]. split; [constructor | now rewrite Hev].
Qed.

Lemma stops_bind {A B : Type} (m : io A) (f : A -> io B) :
  stops_at_first_raise m -> (forall a, stops_at_first_raise (f a)) ->
  stops_at_first_raise (m ≫= f).
Proof.
  intros Hm Hf w t w' r Hrun.
  apply io_bind_inv in Hrun
    as [(t1 & w1 & a & t2 & H1 & H2 & ->) | (e & H1 & ->)].
  - apply Hm in H1. apply Hf in H2. cbn in H1. destruct r as [b|e].
    + now apply Forall_app.
    + destruct H2 as [H2 | (t0 & ev & -> & H2 & Hev)].
      * left. now apply Forall_app.
      * right. exists (t1 ++ t0), ev.
        split; [now rewrite app_assoc |]. split; [now apply Forall_app | exact Hev].
  - now apply Hm in H1.
Qed.

Lemma stops_for_each {A S : Type} (body : S -> A -> io S) (xs : list A) :
  (forall s x, stops_at_first_raise (body s x)) ->
  forall s, stops_at_first_raise (for_each xs body s).
Proof.
  intros Hbody. induction xs as [|x xs IH]; intros s; cbn [for_each].
  - apply stops_ret.
  - apply stops_bind; [apply Hbody | exact IH].
Qed.

(** In a computation that stops at the first raise, a call that raised is
    the last one, and its exception is the outcome. *)
Lemma stops_raised {A : Type} (m : io A) w t w' r pre ev post e :
  stops_at_first_raise m ->
  m w = (t, w', r) -> t = pre ++ ev :: post -> event_exn ev = Some e ->
  post = [] /\ r = Raise e /\ all_returned pre.
Proof.
  intros Hm Hrun Ht Hev. apply Hm in Hrun.
  assert (Hno : forall t', all_returned t' -> t' = pre ++ ev :: post -> False).
  { intros t' Hret ->. apply Forall_app in Hret as [_ Hret].
    apply Forall_inv in Hret. apply event_exn_Some in Hev. congruence. }
  destruct r as [a|e'].
  - now destruct (Hno t Hrun Ht).
  - destruct Hrun as [Hret | (t0 & ev0 & -> & Hret & Hev0)];
      [now destruct (Hno t Hret Ht) |].
    apply (split_after_prefix (fun ev => event_raised ev = false)) in Ht
      as (p' & -> & Hp'); [| exact Hret | apply event_exn_Some in Hev; congruence].
    destruct p' as [|x p']; [| destruct p'; discriminate].
    cbn in Hp'. injection Hp' as <- <-. rewrite app_nil_r.
    split; [reflexivity |]. split; [congruence | exact Hret].
Qed.

(** ** The functions stop at the first raise *)

Lemma stops_evaluate_ik tfs threshold iterations seed :
  stops_at_first_raise (evaluate_ik tfs threshold iterations seed).
Proof.
  unfold evaluate_ik, evaluate_ik_frame.
  apply stops_bind; [| intros fr; apply stops_ret].
  apply stops_for_each. intros fr i. unfold evaluate_ik_body.
  apply stops_bind; [apply stops_lift |]. intros tf.
  apply stops_bind; [apply stops_attr |]. intros row.
  apply stops_bind; [now apply stops_call |]. intros [pos quat].
  apply stops_bind; [now apply stops_call |]. intros sln.
  apply stops_bind; [apply stops_lift |]. intros reach. apply stops_ret.
Qed.

Lemma stops_get_sim_and_robot robot_type degrees :
  stops_at_first_raise (get_sim_and_robot robot_type degrees).
Proof.
  unfold get_sim_and_robot.
  apply stops_bind; [now apply stops_call |]. intros _.
  destruct (decide (robot_type = "franka")).
  - apply stops_bind; [apply stops_lift |]. intros urdf_fn.
    apply stops_bind; [apply stops_lift |]. intros _. now apply stops_call.
  - apply stops_bind; [apply stops_lift |]. intros _. now apply stops_call.
Qed.

Lemma stops_main args : stops_at_first_raise (main args).
Proof.
  unfold main. cbv zeta.
  apply stops_bind; [now apply stops_call |]. intros _.
  apply stops_bind; [apply stops_get_sim_and_robot |]. intros _.
  apply stops_bind; [apply stops_attr |]. intros z_max.
  apply stops_bind; [apply stops_attr |]. intros radius.
  apply stops_bind; [apply stops_lift |]. intros poses.
  apply stops_bind; [now apply stops_call |]. intros _.
  apply stops_bind; [apply stops_evaluate_ik |]. intros reachable.
  repeat (apply stops_bind; [now apply stops_call |]; intros _).
  now apply stops_call.
Qed.

(** ** Dictionaries *)

Lemma dict_get_Ok {K V : Type} `{EqDecision K} (d : list (K * V)) k v :
  dict_get d k = Ok v -> (k, v) ∈ d.
Proof.
  induction d as [|[k' v'] d IH]; cbn; [discriminate |].
  destruct (decide (k' = k)) as [-> | _].
  - intros [= ->]. apply list_elem_of_here.
  - intros H. apply list_elem_of_further. auto.
Qed.

Lemma dict_get_not_elem {K V : Type} `{EqDecision K} (d : list (K * V)) k :
  k ∉ d.*1 -> dict_get d k = Raise KeyError.
Proof.
  induction d as [|[k' v'] d IH]; cbn; [reflexivity |].
  intros Hk. apply not_elem_of_cons in Hk as [Hne Hk].
  destruct (decide (k' = k)); [congruence | auto].
Qed.

Lemma dict_get_elem {K V : Type} `{EqDecision K} (d : list (K * V)) k :
  k ∈ d.*1 -> exists v, dict_get d k = Ok v.
Proof.
  induction d as [|[k' v'] d IH]; cbn.
  - intros Hk. now apply elem_of_nil in Hk.
  - intros Hk. destruct (decide (k' = k)); [now exists v' |].
    apply elem_of_cons in Hk as [-> | Hk]; [congruence | auto].
Qed.

Lemma dict_get_Raise {K V : Type} `{EqDecision K} (d : list (K * V)) k e :
  dict_get d k = Raise e -> e = KeyError /\ k ∉ d.*1.
Proof.
  intros Hget. split.
  - induction d as [|[k' v'] d IH]; cbn in Hget; [congruence |].
    destruct (decide (k' = k)); [discriminate | auto].
  - intros Hk. apply dict_get_elem in Hk as [v Hv]. congruence.
Qed.

(** ** get_sim_and_robot *)

(** The runs of get_sim_and_robot: the simulator is asked for first; then
    either it raised, or a lookup failed with KeyError, or the robot was
    asked for, with the URDF of [degrees] for franka and none otherwise. *)
Lemma get_sim_and_robot_run robot_type degrees w t w' r :
  get_sim_and_robot robot_type degrees w = (t, w', r) ->
  exists r0 w1,
    Simulator w = (r0, w1) /\
    ((exists e, r0 = Raise e /\ t = [EvSimulator (Raise e)] /\ w' = w1 /\ r = Raise e) \/
     (r0 = Ok () /\ t = [EvSimulator (Ok ())] /\ w' = w1 /\ r = Raise KeyError /\
      ((robot_type = "franka" /\ degrees ∉ franka_versions.*1) \/
       robot_type ∉ robot_types)) \/
     (exists urdf_fn,
        r0 = Ok () /\ robot_type ∈ robot_types /\
        (if decide (robot_type = "franka")
         then exists fn, urdf_fn = Some fn /\ dict_get franka_versions degrees = Ok fn
         else urdf_fn = None) /\
        robot_new robot_type urdf_fn w1 = (r, w') /\
        t = [EvSimulator (Ok ()); EvRobot robot_type urdf_fn r])).
Proof.
  unfold get_sim_and_robot. intros Hrun.
  destruct (Simulator w) as [r0 w1] eqn:Esim. exists r0, w1.
  split; [reflexivity |].
  apply io_bind_inv in Hrun
    as [(t1 & w1' & [] & t2 & H1 & Hrun & ->) | (e & H1 & ->)];
    apply call_inv in H1 as [-> H1]; rewrite Esim in H1; injection H1 as -> ->.
  2: { left. exists e. auto. }
  right.
  destruct (decide (robot_type = "franka")) as [Hf | Hf].
  - apply io_bind_inv in Hrun
      as [(t3 & w3 & fn & t4 & H3 & Hrun & ->) | (e & H3 & ->)];
      injection H3 as <- <- H3.
    2: { left. apply dict_get_Raise in H3 as [-> Hno]. auto 10. }
    apply io_bind_inv in Hrun
      as [(t5 & w5 & [] & t6 & H5 & Hrun & ->) | (e & H5 & ->)];
      injection H5 as <- <- H5;
      destruct (decide (robot_type ∈ robot_types)) as [Hin | Hin]; try discriminate.
    + right. apply call_inv in Hrun as [-> Hrun].
      exists (Some fn). split; [reflexivity |]. split; [exact Hin |].
      split; [now exists fn |]. auto.
    + left. injection H5 as <-. auto 10.
  - apply io_bind_inv in Hrun
      as [(t5 & w5 & [] & t6 & H5 & Hrun & ->) | (e & H5 & ->)];
      injection H5 as <- <- H5;
      destruct (decide (robot_type ∈ robot_types)) as [Hin | Hin]; try discriminate.
    + right. apply call_inv in Hrun as [-> Hrun].
      exists None. auto.
    + left. injection H5 as <-. auto 10.
Qed.

Lemma get_sim_and_robot_stage robot_type degrees w t w' r :
  get_sim_and_robot robot_type degrees w = (t, w', r) ->
  Forall (fun ev => event_stage ev = 0%nat /\
                    forall fn arr, ev <> EvSavePoses fn arr (Ok ())) t.
Proof.
  intros Hrun. apply get_sim_and_robot_run in Hrun
    as (r0 & w1 & _ & [(e & _ & -> & _) | [(_ & -> & _) | (urdf_fn & _ & _ & _ & _ & ->)]]);
    repeat constructor; discriminate.
Qed.

(** ** evaluate_ik makes evaluation calls only *)

Lemma for_each_Forall {A S : Type} (P : event -> Prop) (body : S -> A -> io S)
    (xs : list A) :
  (forall s x w t w' r, body s x w = (t, w', r) -> Forall P t) ->
  forall s w t w' r, for_each xs body s w = (t, w', r) -> Forall P t.
Proof.
  intros Hbody. induction xs as [|x xs IH]; intros s w t w' r; cbn [for_each].
  - intros [= <- <- <-]. constructor.
  - apply bind_Forall; [apply Hbody | exact IH].
Qed.

Lemma evaluate_ik_stage tfs threshold iterations seed w t w' r :
  evaluate_ik tfs threshold iterations seed w = (t, w', r) ->
  Forall (fun ev => event_stage ev = 1%nat) t.
Proof.
  unfold evaluate_ik, evaluate_ik_frame.
  apply bind_Forall; [| intros fr w0 t0 w1 r0 [= <- <- <-]; constructor].
  intros w0 t0 w1 r0. apply for_each_Forall. clear.
  intros fr i w t w' r. unfold evaluate_ik_body.
  apply bind_Forall; [intros *; apply lift_Forall |]. intros tf *.
  apply bind_Forall; [intros ? ? ? ? [= <- <- <-]; constructor |]. intros row *.
  apply bind_Forall; [intros *; now apply call_Forall |]. intros [pos quat] *.
  apply bind_Forall; [intros *; now apply call_Forall |]. intros sln *.
  apply bind_Forall; [intros *; apply lift_Forall |].
  intros reach ? ? ? ? [= <- <- <-]. constructor.
Qed.

(** ** The runs of main *)

(** Either main fails during the set-up, before the poses are saved; or the
    poses are sampled from the ranges of the robot and saved, evaluate_ik
    runs on them, and the closing calls follow if and only if evaluate_ik
    returned. *)
Lemma main_shape args w t w' r :
  main args w = (t, w', r) ->
  (Forall (fun ev => event_stage ev = 0%nat /\
                     forall fn arr, ev <> EvSavePoses fn arr (Ok ())) t /\
   exists e, r = Raise e) \/
  exists wa tg w0 w1 poses te we re closing,
    path_mkdir (data_dir_of args) w = (Ok (), wa) /\
    get_sim_and_robot (arg_robot_type args) (arg_degrees args) wa = (tg, w0, Ok ()) /\
    get_evaluation_poses (range_radius w0) (range_z w0)
      (arg_num_samples args) (arg_seed args) = Ok poses /\
    np_save_poses (path_join (data_dir_of args) "poses.npy") poses w0 = (Ok (), w1) /\
    evaluate_ik poses (arg_threshold args) (arg_iterations args) (arg_seed args) w1
      = (te, we, re) /\
    t = EvMkdir (data_dir_of args) (Ok ()) :: tg
        ++ EvSavePoses (path_join (data_dir_of args) "poses.npy") poses (Ok ())
        :: te ++ closing /\
    Forall (fun ev => event_stage ev = 2%nat) closing /\
    match re with
    | Raise e => closing = [] /\ r = Raise e /\ w' = we
    | Ok vs =>
        exists rd rest,
          closing = EvDisconnect rd :: rest /\
          (r = Ok () ->
           rd = Ok () /\
           rest =
             [EvSaveBools (path_join (data_dir_of args) "reachable_by_ik.npy") vs (Ok ());
              EvPrint MsgCompleted (Ok ());
              EvPrint (MsgPosesStored (arg_num_samples args)
                         (path_join (data_dir_of args) "poses.npy")) (Ok ());
              EvPrint (MsgReachableStored
                         (path_join (data_dir_of args) "reachable_by_ik.npy")) (Ok ());
              EvPrint (MsgPercentReachable (np_sum vs) (arg_num_samples args)) (Ok ());
              EvPrint (MsgPercentNotReachable (np_sum vs) (arg_num_samples args)) (Ok ())])
    end.
Proof.
  unfold main. cbv zeta. intros H.
  apply io_bind_inv in H as [(t1 & wa & [] & t2 & H1 & H & ->) | (e & H1 & ->)];
    apply call_inv in H1 as [-> H1].
  2: { left. split; [| now exists e]. repeat constructor; discriminate. }
  apply io_bind_inv in H as [(tg & w0 & [] & t3 & H2 & H & ->) | (e & H2 & ->)].
  2: { left. split; [| now exists e].
       constructor; [split; [reflexivity | discriminate] |].
       now apply get_sim_and_robot_stage in H2. }
  apply io_bind_inv in H as [(t3' & w3 & z_max & t4 & H3 & H & ->) | (e & H3 & ->)];
    [| discriminate H3].
  injection H3 as <- <- <-.
  apply io_bind_inv in H as [(t4' & w4 & radius & t5 & H4 & H & ->) | (e & H4 & ->)];
    [| discriminate H4].
  injection H4 as <- <- <-.
  apply io_bind_inv in H as [(t5' & w5 & poses & t6 & H5 & H & ->) | (e & H5 & ->)];
    injection H5 as <- <- H5.
  2: { left. split; [| now exists e]. rewrite !app_nil_r.
       constructor; [split; [reflexivity | discriminate] |].
       now apply get_sim_and_robot_stage in H2. }
  apply io_bind_inv in H as [(t6' & w1 & [] & t7 & H6 & H & ->) | (e & H6 & ->)];
    apply call_inv in H6 as [-> H6].
  2: { left. split; [| now exists e]. cbn [app].
       constructor; [split; [reflexivity | discriminate] |].
       apply Forall_app. split; [now apply get_sim_and_robot_stage in H2 |].
       repeat constructor. discriminate. }
  right.
  apply io_bind_inv in H as [(te & we & vs & t8 & H7 & H & ->) | (e & H7 & ->)].
  - exists wa, tg, w0, w1, poses, te, we, (Ok vs), t8.
    repeat (split; [assumption || reflexivity |]).
    split.
    { revert H.
      repeat (apply bind_Forall; [intros *; now apply call_Forall | intros ? *]).
      now apply call_Forall. }
    apply io_bind_inv in H as [(t9 & w9 & a9 & t10 & H9 & H & ->) | (e & H9 & ->)];
      apply call_inv in H9 as [-> H9].
    2: { exists (Raise e), []. split; [reflexivity |]. discriminate. }
    exists (Ok a9), t10. split; [reflexivity |]. intros ->.
    destruct a9. split; [reflexivity |].
    apply bind_call_Ok in H as ([] & ? & ? & _ & H & ->).
    apply bind_call_Ok in H as ([] & ? & ? & _ & H & ->).
    apply bind_call_Ok in H as ([] & ? & ? & _ & H & ->).
    apply bind_call_Ok in H as ([] & ? & ? & _ & H & ->).
    apply bind_call_Ok in H as ([] & ? & ? & _ & H & ->).
    apply call_inv in H as [-> _]. reflexivity.
  - exists wa, tg, w0, w1, poses, t7, w', (Raise e), [].
    repeat (split; [assumption || reflexivity |]).
    split; [cbn; now rewrite <- ?app_assoc, ?app_nil_r |].
    split; [constructor | auto].
Qed.

(** ** The loop, pose by pose *)

Lemma ok_steps_loop_run threshold iterations seed w tfs t vs w' :
  ok_steps threshold iterations seed w tfs t vs w' ->
  loop_run threshold iterations seed w tfs t w' (Ok vs).
Proof.
  induction 1 as [w | w w1 w2 w' tf pos quat sln tfs t vs Etf Eik _ IH];
    [constructor |].
  exact (loop_run_cons _ _ _ _ _ _ _ _ _ _ _ _ _ _ Etf Eik IH).
Qed.

Lemma failing_step_loop_run threshold iterations seed w tf rest t e w' :
  failing_step threshold iterations seed tf w t e w' ->
  loop_run threshold iterations seed w (tf :: rest) t w' (Raise e).
Proof.
  destruct 1; [now apply loop_run_tf_raise | now apply loop_run_ik_raise with w1].
Qed.

Lemma ok_steps_then_loop_run threshold iterations seed w done t1 vs1 wm :
  ok_steps threshold iterations seed w done t1 vs1 wm ->
  forall tfs t2 w' e,
    loop_run threshold iterations seed wm tfs t2 w' (Raise e) ->
    loop_run threshold iterations seed w (done ++ tfs) (t1 ++ t2) w' (Raise e).
Proof.
  induction 1 as [w | w w1 w2 wm tf pos quat sln done t1 vs1 Etf Eik _ IH];
    intros tfs t2 w' e Hrest; [exact Hrest |].
  exact (loop_run_cons _ _ _ _ _ _ _ _ _ _ _ _ _ _ Etf Eik (IH _ _ _ _ Hrest)).
Qed.

(** evaluate_ik runs the loop pose by pose. *)
Lemma evaluate_ik_loop_run tfs threshold iterations seed w t w' r :
  evaluate_ik tfs threshold iterations seed w = (t, w', r) ->
  loop_run threshold iterations seed w tfs t w' r.
Proof.
  intros Hrun. apply evaluate_ik_run in Hrun. destruct r as [vs|e].
  - now apply ok_steps_loop_run.
  - destruct Hrun as (done & tf & rest & t1 & vs1 & wm & t2 & -> & Hs & Hf & ->).
    eapply ok_steps_then_loop_run; [exact Hs |].
    now apply failing_step_loop_run.
Qed.

Lemma loop_run_det threshold iterations seed w tfs t1 w1 r1 :
  loop_run threshold iterations seed w tfs t1 w1 r1 ->
  forall t2 w2 r2,
    loop_run threshold iterations seed w tfs t2 w2 r2 ->
    t1 = t2 /\ w1 = w2 /\ r1 = r2.
Proof.
  induction 1 as [w | w wa tf tfs e Etf | w wa wb tf tfs pos quat e Etf Eik
                  | w wa wb w' tf tfs pos quat sln t r Etf Eik _ IH];
    intros t2 w2 r2 H2; inversion H2; subst;
    repeat match goal with
           | H1 : ?f = (_, _), H2 : ?f = (_, _) |- _ =>
               rewrite H1 in H2; simplify_eq
           end;
    auto.
  match goal with H : loop_run _ _ _ _ _ _ _ _ |- _ =>
    destruct (IH _ _ _ H) as (-> & -> & ->) end.
  auto.
Qed.

Lemma loop_run_app threshold iterations seed w a ta wa ra :
  loop_run threshold iterations seed w a ta wa ra ->
  forall b,
    match ra with
    | Raise e => loop_run threshold iterations seed w (a ++ b) ta wa (Raise e)
    | Ok va =>
        forall tb wb rb,
          loop_run threshold iterations seed wa b tb wb rb ->
          loop_run threshold iterations seed w (a ++ b) (ta ++ tb) wb
            (match rb with
             | Ok vb => Ok (va ++ vb)
             | Raise e => Raise e
             end)
    end.
Proof.
  induction 1 as [w | w wa tf tfs e Etf | w wa wb tf tfs pos quat e Etf Eik
                  | w wa wb w' tf tfs pos quat sln t r Etf Eik _ IH];
    intros b.
  - intros tb wb rb Hb. now destruct rb.
  - now apply loop_run_tf_raise.
  - now apply loop_run_ik_raise with wa.
  - specialize (IH b). destruct r as [vs|e]; cbn [cons_verdict].
    + intros tb wc rb Hb. specialize (IH tb wc rb Hb).
      pose proof (loop_run_cons _ _ _ _ _ _ _ _ _ _ _ _ _ _ Etf Eik IH) as H.
      now destruct rb.
    + exact (loop_run_cons _ _ _ _ _ _ _ _ _ _ _ _ _ _ Etf Eik IH).
Qed.

(** ** Counting the reachable poses *)

Lemma np_sum_bounds (vs : list bool) :
  (0 <= np_sum vs <= Z.of_nat (length vs))%Z.
Proof.
  induction vs as [|b vs IH]; cbn [np_sum foldr length]; [lia |].
  fold (np_sum vs). destruct b; lia.
Qed.

End RunFacts.

(** * Further properties of get_evaluation_poses *)

Lemma get_evaluation_poses_negative_shape `{L : RandomLib}
    (max_radius max_z : R) (n_samples seed : Z) :
  (n_samples < 0)%Z ->
  get_evaluation_poses max_radius max_z n_samples seed = Raise ValueError.
Proof.
  intros Hn. unfold get_evaluation_poses.
  destruct (default_rng seed); cbn [or_ValueError mbind result_bind];
    [| reflexivity].
  now rewrite (np_full_negative _ _ Hn).
Qed.

(** X1: for a negative [n_samples], get_evaluation_poses raises ValueError,
    whatever the other arguments are and whatever the libraries give: np.full
    refuses the shape before anything is drawn. *)
Theorem get_evaluation_poses_negative `{L : RandomLib}
    (max_radius max_z : R) (n_samples seed : Z) :
  (n_samples < 0)%Z ->
  get_evaluation_poses max_radius max_z n_samples seed = Raise ValueError.
Proof.
  intros Hn. unfold get_evaluation_poses.
  destruct (default_rng seed) as [g|]; cbn [or_ValueError mbind result_bind].
  - now rewrite (np_full_negative _ _ Hn).
  - reflexivity.
Qed.

Lemma get_evaluation_poses_negative_witness :
  get_evaluation_poses (L := demo_lib) (8 / 10) (12 / 10) (-1) 27 = Raise ValueError.
Proof.
  apply (@get_evaluation_poses_negative demo_lib (8 / 10) (12 / 10) (-1) 27).
  lia.
Defined.

(** X11: with the same seed and the same number of samples, the size of the
    cylinder touches the positions only: two calls that both return give the
    same orientations, row by row, whatever [max_radius] and [max_z] are;
    with the same [max_radius] they give the same [x] and [y], whatever
    [max_z] is; with the same [max_z] the same heights, whatever
    [max_radius] is.  The rotations and the two draws for the disk are taken
    before the draw for the heights. *)
Theorem get_evaluation_poses_cylinder_independence `{L : RandomLib}
    (max_radius max_z max_radius' max_z' : R) (n_samples seed : Z)
    (tfs tfs' : list mat4) :
  uniform_shape -> rotation_shape ->
  get_evaluation_poses max_radius max_z n_samples seed = Ok tfs ->
  get_evaluation_poses max_radius' max_z' n_samples seed = Ok tfs' ->
  length tfs = length tfs' /\
  forall i T T', tfs !! i = Some T -> tfs' !! i = Some T' ->
    rot_block T = rot_block T' /\
    (max_radius = max_radius' -> e03 T = e03 T' /\ e13 T = e13 T') /\
    (max_z = max_z' -> e23 T = e23 T').
Proof.
  intros Hunif Hrot Hrun Hrun'.
  destruct (get_evaluation_poses_inv _ _ _ _ _ Hunif Hrot Hrun)
    as (Hn & g0 & rot & g1 & u & g2 & v & g3 & z & g4
        & E0 & E1 & E2 & E3 & E4 & ->).
  destruct (get_evaluation_poses_inv _ _ _ _ _ Hunif Hrot Hrun')
    as (_ & g0' & rot' & g1' & u' & g2' & v' & g3' & z' & g4'
        & E0' & E1' & E2' & E3' & E4' & ->).
  rewrite E0 in E0'. injection E0' as <-.
  rewrite E1 in E1'. injection E1' as <- <-.
  rewrite E2 in E2'. injection E2' as <- <-.
  rewrite E3 in E3'. injection E3' as <- <-.
  destruct (get_evaluation_poses_unfold max_radius max_z n_samples seed
              g0 rot g1 u g2 v g3 z g4 Hunif Hrot Hn E0 E1 E2 E3 E4)
    as (_ & Hlen & _).
  destruct (get_evaluation_poses_unfold max_radius' max_z' n_samples seed
              g0 rot g1 u g2 v g3 z' g4' Hunif Hrot Hn E0 E1 E2 E3 E4')
    as (_ & Hlen' & _).
  split; [congruence |].
  intros i T T' HT HT'.
  apply sampled_array_lookup in HT
    as (M & ui & vi & zi & HM & Hui & Hvi & Hzi & ->).
  apply sampled_array_lookup in HT'
    as (M' & ui' & vi' & zi' & HM' & Hui' & Hvi' & Hzi' & ->).
  assert (M = M') by congruence. assert (ui = ui') by congruence.
  assert (vi = vi') by congruence. subst M' ui' vi'.
  rewrite !sampled_pose_rot_block.
  split; [reflexivity |]. cbn. split.
  - intros <-. auto.
  - intros <-. rewrite E4 in E4'. injection E4' as <- _. congruence.
Qed.

Lemma get_evaluation_poses_cylinder_independence_witness :
  exists tfs tfs',
    get_evaluation_poses (L := demo_lib) (8 / 10) (12 / 10) 2 27 = Ok tfs /\
    get_evaluation_poses (L := demo_lib) (8 / 10) 3 2 27 = Ok tfs' /\
    length tfs = length tfs' /\
    forall i T T', tfs !! i = Some T -> tfs' !! i = Some T' ->
      rot_block T = rot_block T' /\ e03 T = e03 T' /\ e13 T = e13 T'.
Proof.
  eexists. eexists. split; [reflexivity |]. split; [reflexivity |].
  destruct (@get_evaluation_poses_cylinder_independence demo_lib
              (8 / 10) (12 / 10) (8 / 10) 3 2 27 _ _
              demo_uniform_shape demo_rotation_shape eq_refl eq_refl)
    as [Hlen Hrows].
  split; [exact Hlen |].
  intros i T T' HT HT'.
  destruct (Hrows i T T' HT HT') as (Hr & Hxy & _).
  destruct (Hxy eq_refl). auto.
Defined.

(** * Properties of get_sim_and_robot *)

(** X3: when [degrees] is no key of [franka_versions] for a franka, or when
    [robot_type] is no key of [robot_types], get_sim_and_robot has already
    made the simulator when the lookup fails: the one call of the run is the
    simulator's, no robot is made, and the function raises KeyError (or
    what the simulator raised). *)
Theorem get_sim_and_robot_key_error `{C : Collab}
    (robot_type : string) (degrees : Z) (w : World) :
  (robot_type = "franka" /\ degrees ∉ franka_versions.*1) \/
  robot_type ∉ robot_types ->
  (get_sim_and_robot robot_type degrees w).1.1 = [EvSimulator (Simulator w).1] /\
  (get_sim_and_robot robot_type degrees w).2
    = match (Simulator w).1 with
      | Ok _ => Raise KeyError
      | Raise e => Raise e
      end.
Proof.
  intros Hkey.
  destruct (get_sim_and_robot robot_type degrees w) as [[t w'] r] eqn:Hrun.
  cbn [fst snd].
  apply get_sim_and_robot_run in Hrun
    as (r0 & w1 & -> & [(e & -> & -> & _ & ->)
                       | [(-> & -> & _ & -> & _)
                         | (urdf_fn & _ & Hin & Hurdf & _)]]);
    cbn [fst snd]; auto.
  exfalso. destruct Hkey as [[Hf Hno] | Hno]; [| contradiction].
  destruct (decide (robot_type = "franka")); [| contradiction].
  destruct Hurdf as (fn & _ & Hget). apply dict_get_Ok in Hget.
  apply Hno. apply list_elem_of_fmap. now exists (degrees, fn).
Qed.

Lemma get_sim_and_robot_key_error_witness :
  (get_sim_and_robot (C := demo_collab) "franka" 170 0%nat).1.1
    = [EvSimulator (C := demo_collab) (Ok ())] /\
  (get_sim_and_robot (C := demo_collab) "franka" 170 0%nat).2 = Raise KeyError.
Proof.
  apply (@get_sim_and_robot_key_error demo_collab "franka" 170 0%nat).
  left. split; [reflexivity |]. cbn.
  intros H. repeat (apply elem_of_cons in H as [H | H]; [discriminate H |]).
  now apply elem_of_nil in H.
Defined.

(** X5: when get_sim_and_robot returns, it has made the simulator and then
    one robot of a type listed in [robot_types], and nothing else: for a
    franka with the URDF that [franka_versions] gives for [degrees], for any
    other robot with no URDF, [degrees] unused. *)
Theorem get_sim_and_robot_returns `{C : Collab}
    (robot_type : string) (degrees : Z) (w : World) :
  (get_sim_and_robot robot_type degrees w).2 = Ok () ->
  exists urdf_fn,
    (get_sim_and_robot robot_type degrees w).1.1
      = [EvSimulator (Ok ()); EvRobot robot_type urdf_fn (Ok ())] /\
    robot_type ∈ robot_types /\
    (robot_type = "franka" ->
     exists fn, urdf_fn = Some fn /\ (degrees, fn) ∈ franka_versions) /\
    (robot_type <> "franka" -> urdf_fn = None).
Proof.
  intros Hok.
  destruct (get_sim_and_robot robot_type degrees w) as [[t w'] r] eqn:Hrun.
  cbn [fst snd] in *. subst r.
  apply get_sim_and_robot_run in Hrun
    as (r0 & w1 & _ & [(e & _ & _ & _ & [=])
                      | [(_ & _ & _ & [=] & _)
                        | (urdf_fn & _ & Hin & Hurdf & _ & ->)]]).
  exists urdf_fn. split; [reflexivity |]. split; [exact Hin |].
  destruct (decide (robot_type = "franka")) as [Hf | Hf].
  - destruct Hurdf as (fn & -> & Hget). apply dict_get_Ok in Hget.
    split; [intros _; now exists fn | contradiction].
  - split; [contradiction | auto].
Qed.

Lemma get_sim_and_robot_returns_witness :
  exists urdf_fn,
    (get_sim_and_robot (C := demo_collab) "franka" 160 0%nat).1.1
      = [EvSimulator (C := demo_collab) (Ok ());
         EvRobot (C := demo_collab) "franka" urdf_fn (Ok ())] /\
    "franka" ∈ robot_types (Collab := demo_collab) /\
    ("franka" = "franka" ->
     exists fn, urdf_fn = Some fn /\
                (160%Z, fn) ∈ franka_versions (Collab := demo_collab)) /\
    ("franka" <> "franka" -> urdf_fn = None).
Proof.
  apply (@get_sim_and_robot_returns demo_collab "franka" 160 0%nat).
  reflexivity.
Defined.

(** * Properties of main *)

(** The three stages of a run of main. *)
Lemma main_stage_split `{L : RandomLib} `{C : Collab} (args : Args) w t w' r :
  main args w = (t, w', r) ->
  exists l0 l1 l2,
    t = l0 ++ l1 ++ l2 /\
    Forall (fun ev => event_stage ev = 0%nat) l0 /\
    Forall (fun ev => event_stage ev = 1%nat) l1 /\
    Forall (fun ev => event_stage ev = 2%nat) l2.
Proof.
  intros Hrun. apply main_shape in Hrun
    as [[Hsetup _] | (wa & tg & w0 & w1 & poses & te & we & re & closing
                      & _ & Hg & _ & _ & He & -> & Hclosing & _)].
  - exists t, [], []. rewrite !app_nil_r.
    split; [reflexivity |]. split; [| split; constructor].
    eapply Forall_impl; [exact Hsetup |]. now intros ev [H _].
  - exists (EvMkdir (data_dir_of args) (Ok ()) :: tg
            ++ [EvSavePoses (path_join (data_dir_of args) "poses.npy") poses (Ok ())]),
      te, closing.
    split; [cbn; now rewrite <- app_assoc |].
    split; [| split; [now apply evaluate_ik_stage in He | exact Hclosing]].
    constructor; [reflexivity |]. apply Forall_app. split; [| now repeat constructor].
    apply get_sim_and_robot_stage in Hg.
    eapply Forall_impl; [exact Hg |]. now intros ev [H _].
Qed.

(** Stages that come in three blocks come in order. *)
Lemma stages_in_order `{C : Collab} (l0 l1 l2 : list event) i j ev1 ev2 :
  Forall (fun ev => event_stage ev = 0%nat) l0 ->
  Forall (fun ev => event_stage ev = 1%nat) l1 ->
  Forall (fun ev => event_stage ev = 2%nat) l2 ->
  (i <= j)%nat ->
  (l0 ++ l1 ++ l2) !! i = Some ev1 -> (l0 ++ l1 ++ l2) !! j = Some ev2 ->
  (event_stage ev1 <= event_stage ev2)%nat.
Proof.
  intros H0 H1 H2 Hij Hi Hj.
  rewrite Forall_lookup in H0, H1, H2.
  apply lookup_app_Some in Hi as [Hi | [Li Hi]];
    [| apply lookup_app_Some in Hi as [Hi | [Li' Hi]]];
    (apply lookup_app_Some in Hj as [Hj | [Lj Hj]];
     [| apply lookup_app_Some in Hj as [Hj | [Lj' Hj]]]);
    pose proof (lookup_lt_Some _ _ _ Hi) as Bi;
    pose proof (lookup_lt_Some _ _ _ Hj) as Bj;
    first [apply H0 in Hi | apply H1 in Hi | apply H2 in Hi];
    first [apply H0 in Hj | apply H1 in Hj | apply H2 in Hj];
    lia.
Qed.

(** X14: a run of main goes through its stages in order: the set-up calls
    (directory, simulator, robot, saving the poses), then the conversions and
    solver invocations, then the closing calls (disconnecting, saving the
    verdicts, printing); no call of an earlier stage follows a call of a
    later one. *)
Theorem main_stages_in_order `{L : RandomLib} `{C : Collab}
    (args : Args) (w : World) (i j : nat) (ev1 ev2 : event) :
  (i <= j)%nat ->
  (main args w).1.1 !! i = Some ev1 ->
  (main args w).1.1 !! j = Some ev2 ->
  (event_stage ev1 <= event_stage ev2)%nat.
Proof.
  intros Hij Hi Hj.
  destruct (main args w) as [[t w'] r] eqn:Hrun. cbn [fst snd] in *.
  apply main_stage_split in Hrun as (l0 & l1 & l2 & -> & H0 & H1 & H2).
  exact (stages_in_order l0 l1 l2 i j ev1 ev2 H0 H1 H2 Hij Hi Hj).
Qed.

Lemma main_stages_in_order_witness :
  exists ev1 ev2,
    (main (L := demo_lib) (C := demo_collab) demo_args 0%nat).1.1 !! 5%nat = Some ev1 /\
    (main (L := demo_lib) (C := demo_collab) demo_args 0%nat).1.1 !! 8%nat = Some ev2 /\
    (event_stage ev1 <= event_stage ev2)%nat.
Proof.
  eexists. eexists.
  split; [reflexivity |]. split; [reflexivity |].
  eapply (@main_stages_in_order demo_lib demo_collab demo_args 0%nat 5 8);
    [lia | reflexivity | reflexivity].
Defined.

(** X7: main stops at the first call that raises: in any run, a call that
    raised is the last call made, every call before it returned, and main
    raises the very exception of that call. *)
Theorem main_stops_at_first_raise `{L : RandomLib} `{C : Collab}
    (args : Args) (w : World) (pre post : list event) (ev : event) (e : exn) :
  (main args w).1.1 = pre ++ ev :: post ->
  event_exn ev = Some e ->
  post = [] /\ (main args w).2 = Raise e /\ all_returned pre.
Proof.
  intros Ht Hev.
  destruct (main args w) as [[t w'] r] eqn:Hrun. cbn [fst snd] in *.
  exact (stops_raised (main args) w t w' r pre ev post e
           (stops_main args) Hrun Ht Hev).
Qed.

Lemma main_stops_at_first_raise_witness :
  exists ev,
    (main (L := demo_lib) (C := demo_collab) demo_args3 0%nat).1.1
      = take 9 (main (L := demo_lib) (C := demo_collab) demo_args3 0%nat).1.1
        ++ ev :: [] /\
    event_exn ev = Some (ExternalError "solver crashed") /\
    (main (L := demo_lib) (C := demo_collab) demo_args3 0%nat).2
      = Raise (ExternalError "solver crashed").
Proof.
  eexists.
  assert (Ht : (main (L := demo_lib) (C := demo_collab) demo_args3 0%nat).1.1
               = take 9 (main (L := demo_lib) (C := demo_collab) demo_args3 0%nat).1.1
                 ++ _ :: []) by reflexivity.
  split; [exact Ht |]. split; [reflexivity |].
  exact (proj1 (proj2 (@main_stops_at_first_raise demo_lib demo_collab demo_args3 0%nat
                         _ _ _ _ Ht eq_refl))).
Defined.

(** X8: when a conversion or a solver invocation raises during a run of
    main, main raises that exception and none of the closing calls is made:
    the simulator is not disconnected, the verdicts are not saved, nothing is
    printed. The pose file has been written before. *)
Theorem main_evaluation_error `{L : RandomLib} `{C : Collab}
    (args : Args) (w : World) (pre post : list event) (ev : event) (e : exn) :
  (main args w).1.1 = pre ++ ev :: post ->
  event_stage ev = 1%nat ->
  event_exn ev = Some e ->
  (main args w).2 = Raise e /\
  post = [] /\
  Forall (fun ev' => event_stage ev' <> 2%nat) (main args w).1.1 /\
  exists poses,
    EvSavePoses (path_join (data_dir_of args) "poses.npy") poses (Ok ()) ∈ pre.
Proof.
  intros Ht Hstage Hev.
  destruct (main args w) as [[t w'] r] eqn:Hrun. cbn [fst snd] in *.
  destruct (stops_raised (main args) w t w' r pre ev post e
              (stops_main args) Hrun Ht Hev) as (-> & -> & Hpre).
  split; [reflexivity |]. split; [reflexivity |].
  apply main_shape in Hrun
    as [[Hsetup _] | (wa & tg & w0 & w1 & poses & te & we & re & closing
                      & _ & Hg & _ & _ & He & Hshape & Hclosing & Hre)].
  { exfalso. rewrite Ht in Hsetup. apply Forall_app in Hsetup as [_ Hsetup].
    apply Forall_inv in Hsetup as [Hsetup _]. congruence. }
  apply get_sim_and_robot_stage in Hg.
  apply evaluate_ik_stage in He.
  assert (Hnil : closing = []).
  { destruct re as [vs|e']; [| apply Hre].
    exfalso. destruct Hre as (rd & rest & -> & _).
    destruct (exists_last (l := EvDisconnect rd :: rest)) as (init & last & Hlast);
      [discriminate |].
    rewrite Hlast in Hshape, Hclosing.
    apply Forall_app in Hclosing as [_ Hclosing]. apply Forall_inv in Hclosing.
    rewrite Ht in Hshape.
    replace (EvMkdir (data_dir_of args) (Ok ())
               :: tg ++ EvSavePoses (path_join (data_dir_of args) "poses.npy") poses (Ok ())
               :: te ++ init ++ [last])
      with ((EvMkdir (data_dir_of args) (Ok ())
               :: tg ++ EvSavePoses (path_join (data_dir_of args) "poses.npy") poses (Ok ())
               :: te ++ init) ++ [last]) in Hshape
      by (cbn; rewrite <- !app_assoc; cbn; now rewrite <- !app_assoc).
    apply app_inj_tail in Hshape as [_ <-]. congruence. }
  subst closing. rewrite app_nil_r in Hshape.
  split.
  - rewrite Hshape. constructor; [discriminate |].
    apply Forall_app. split.
    + eapply Forall_impl; [exact Hg |]. intros ev' [H _]. congruence.
    + constructor; [discriminate |].
      eapply Forall_impl; [exact He |]. intros ev' H. cbn in H. congruence.
  - exists poses. rewrite Ht in Hshape.
    destruct (exists_last (l := te)) as (te0 & ev0 & ->).
    { intros ->.
      replace (EvMkdir (data_dir_of args) (Ok ())
                 :: tg ++ [EvSavePoses (path_join (data_dir_of args) "poses.npy")
                             poses (Ok ())])
        with ((EvMkdir (data_dir_of args) (Ok ()) :: tg)
                ++ [EvSavePoses (path_join (data_dir_of args) "poses.npy") poses (Ok ())])
        in Hshape by reflexivity.
      apply app_inj_tail in Hshape as [_ ->]. discriminate Hstage. }
    replace (EvMkdir (data_dir_of args) (Ok ())
               :: tg ++ EvSavePoses (path_join (data_dir_of args) "poses.npy") poses (Ok ())
               :: te0 ++ [ev0])
      with ((EvMkdir (data_dir_of args) (Ok ())
               :: tg ++ EvSavePoses (path_join (data_dir_of args) "poses.npy") poses (Ok ())
               :: te0) ++ [ev0]) in Hshape
      by (cbn; rewrite <- !app_assoc; reflexivity).
    apply app_inj_tail in Hshape as [-> _].
    apply list_elem_of_further. apply elem_of_app. right.
    apply list_elem_of_here.
Qed.

Lemma main_evaluation_error_witness :
  exists ev,
    (main (L := demo_lib) (C := demo_collab) demo_args3 0%nat).1.1
      = take 9 (main (L := demo_lib) (C := demo_collab) demo_args3 0%nat).1.1
        ++ ev :: [] /\
    event_stage ev = 1%nat /\
    event_exn ev = Some (ExternalError "solver crashed") /\
    Forall (fun ev' => event_stage ev' <> 2%nat)
      (main (L := demo_lib) (C := demo_collab) demo_args3 0%nat).1.1.
Proof.
  eexists.
  assert (Ht : (main (L := demo_lib) (C := demo_collab) demo_args3 0%nat).1.1
               = take 9 (main (L := demo_lib) (C := demo_collab) demo_args3 0%nat).1.1
                 ++ _ :: []) by reflexivity.
  split; [exact Ht |]. split; [reflexivity |]. split; [reflexivity |].
  exact (proj1 (proj2 (proj2
           (@main_evaluation_error demo_lib demo_collab demo_args3 0%nat
              _ _ _ _ Ht eq_refl eq_refl)))).
Defined.

(** X6: when main returns, its calls were, in this order: making the data
    directory, the simulator and the robot; saving the poses that
    get_evaluation_poses returned for the ranges of the robot; the calls of
    evaluate_ik on these poses; disconnecting the simulator; saving the
    verdicts that evaluate_ik returned, one per pose; and the five messages,
    the last two with the number of true verdicts. Every call returned. *)
Theorem main_returns `{L : RandomLib} `{C : Collab} (args : Args) (w : World) :
  (main args w).2 = Ok () ->
  let data_dir := data_dir_of args in
  let poses_fn := path_join data_dir "poses.npy" in
  let reachable_fn := path_join data_dir "reachable_by_ik.npy" in
  let num_samples := arg_num_samples args in
  exists urdf_fn poses te vs w0 w1 we,
    (main args w).1.1
      = [EvMkdir data_dir (Ok ());
         EvSimulator (Ok ());
         EvRobot (arg_robot_type args) urdf_fn (Ok ());
         EvSavePoses poses_fn poses (Ok ())]
        ++ te
        ++ [EvDisconnect (Ok ());
            EvSaveBools reachable_fn vs (Ok ());
            EvPrint MsgCompleted (Ok ());
            EvPrint (MsgPosesStored num_samples poses_fn) (Ok ());
            EvPrint (MsgReachableStored reachable_fn) (Ok ());
            EvPrint (MsgPercentReachable (np_sum vs) num_samples) (Ok ());
            EvPrint (MsgPercentNotReachable (np_sum vs) num_samples) (Ok ())] /\
    get_evaluation_poses (range_radius w0) (range_z w0) num_samples (arg_seed args)
      = Ok poses /\
    evaluate_ik poses (arg_threshold args) (arg_iterations args) (arg_seed args) w1
      = (te, we, Ok vs) /\
    length vs = length poses /\
    all_returned (main args w).1.1.
Proof.
  intros Hok. cbv zeta.
  destruct (main args w) as [[t w'] r] eqn:Hrun. cbn [fst snd] in *. subst r.
  pose proof (stops_main args w t w' (Ok ()) Hrun) as Hret. cbn in Hret.
  apply main_shape in Hrun
    as [[_ [e [=]]] | (wa & tg & w0 & w1 & poses & te & we & re & closing
                      & _ & Hg & Hposes & _ & He & -> & _ & Hre)].
  destruct re as [vs|e]; [| now destruct Hre as (_ & [=] & _)].
  destruct Hre as (rd & rest & -> & Hrest).
  destruct (Hrest eq_refl) as [-> ->].
  apply get_sim_and_robot_run in Hg
    as (r0 & w2 & _ & [(e & _ & _ & _ & [=])
                      | [(_ & _ & _ & [=] & _)
                        | (urdf_fn & _ & _ & _ & _ & ->)]]).
  exists urdf_fn, poses, te, vs, w0, w1, we.
  split; [reflexivity |]. split; [exact Hposes |]. split; [exact He |].
  split; [| exact Hret].
  apply evaluate_ik_run in He.
  now destruct (ok_steps_facts _ _ _ _ _ _ _ _ He) as (Hlen & _).
Qed.

Lemma main_returns_witness :
  (main (L := demo_lib) (C := demo_collab) demo_args 0%nat).2 = Ok () /\
  all_returned (main (L := demo_lib) (C := demo_collab) demo_args 0%nat).1.1 /\
  length (main (L := demo_lib) (C := demo_collab) demo_args 0%nat).1.1 = 15%nat.
Proof.
  assert (Hok : (main (L := demo_lib) (C := demo_collab) demo_args 0%nat).2 = Ok ())
    by reflexivity.
  split; [exact Hok |].
  destruct (@main_returns demo_lib demo_collab demo_args 0%nat Hok)
    as (urdf_fn & poses & te & vs & w0 & w1 & we & _ & _ & _ & _ & Hret).
  split; [exact Hret | reflexivity].
Defined.

(** X10: when main returns for [num_samples >= 0], and the libraries give
    arrays of the requested sizes, the pose array it saved and the verdict
    array it saved both have [num_samples] rows, and the number of reachable
    poses it printed lies between 0 and [num_samples]. *)
Theorem main_counts `{L : RandomLib} `{C : Collab} (args : Args) (w : World) :
  uniform_shape -> rotation_shape -> (0 <= arg_num_samples args)%Z ->
  (main args w).2 = Ok () ->
  exists poses vs,
    EvSavePoses (path_join (data_dir_of args) "poses.npy") poses (Ok ())
      ∈ (main args w).1.1 /\
    EvSaveBools (path_join (data_dir_of args) "reachable_by_ik.npy") vs (Ok ())
      ∈ (main args w).1.1 /\
    EvPrint (MsgPercentReachable (np_sum vs) (arg_num_samples args)) (Ok ())
      ∈ (main args w).1.1 /\
    Z.of_nat (length poses) = arg_num_samples args /\
    Z.of_nat (length vs) = arg_num_samples args /\
    (0 <= np_sum vs <= arg_num_samples args)%Z.
Proof.
  intros Hunif Hrot Hn Hok.
  destruct (main args w) as [[t w'] r] eqn:Hrun. cbn [fst snd] in *. subst r.
  apply main_shape in Hrun
    as [[_ [e [=]]] | (wa & tg & w0 & w1 & poses & te & we & re & closing
                      & _ & _ & Hposes & _ & He & -> & _ & Hre)].
  destruct re as [vs|e]; [| now destruct Hre as (_ & [=] & _)].
  destruct Hre as (rd & rest & -> & Hrest).
  destruct (Hrest eq_refl) as [-> ->].
  destruct (get_evaluation_poses_rows _ _ _ _ _ Hunif Hrot Hposes)
    as (_ & _ & _ & Hlen & _).
  apply evaluate_ik_run in He.
  destruct (ok_steps_facts _ _ _ _ _ _ _ _ He) as (Hvs & _).
  pose proof (np_sum_bounds vs) as Hsum.
  exists poses, vs.
  split; [apply list_elem_of_further, elem_of_app; right; apply list_elem_of_here |].
  split; [apply list_elem_of_further, elem_of_app; right;
          apply list_elem_of_further, elem_of_app; right;
          apply list_elem_of_further, list_elem_of_here |].
  split; [apply list_elem_of_further, elem_of_app; right;
          apply list_elem_of_further, elem_of_app; right;
          do 5 apply list_elem_of_further; apply list_elem_of_here |].
  lia.
Qed.

Lemma main_counts_witness :
  exists poses vs,
    EvSavePoses (C := demo_collab)
      (path_join (data_dir_of demo_args) "poses.npy") poses (Ok ())
      ∈ (main (L := demo_lib) (C := demo_collab) demo_args 0%nat).1.1 /\
    EvSaveBools (C := demo_collab)
      (path_join (data_dir_of demo_args) "reachable_by_ik.npy") vs (Ok ())
      ∈ (main (L := demo_lib) (C := demo_collab) demo_args 0%nat).1.1 /\
    EvPrint (C := demo_collab)
      (MsgPercentReachable (np_sum vs) (arg_num_samples demo_args)) (Ok ())
      ∈ (main (L := demo_lib) (C := demo_collab) demo_args 0%nat).1.1 /\
    Z.of_nat (length poses) = arg_num_samples demo_args /\
    Z.of_nat (length vs) = arg_num_samples demo_args /\
    (0 <= np_sum vs <= arg_num_samples demo_args)%Z.
Proof.
  apply (@main_counts demo_lib demo_collab demo_args 0%nat
           demo_uniform_shape demo_rotation_shape);
    [cbn; lia | reflexivity].
Defined.

(** X2: with a negative [num_samples], main makes the data directory, the
    simulator and the robot and then fails: it never returns, it calls
    nothing but these three, so no file is written and nothing is evaluated;
    when the three calls succeed, the exception is the ValueError of
    get_evaluation_poses. *)
Theorem main_negative_num_samples `{L : RandomLib} `{C : Collab}
    (args : Args) (w : World) :
  (arg_num_samples args < 0)%Z ->
  (exists e, (main args w).2 = Raise e) /\
  Forall (fun ev => match ev with
                    | EvMkdir _ _ | EvSimulator _ | EvRobot _ _ _ => True
                    | _ => False
                    end) (main args w).1.1 /\
  (forall wa tg w0,
     path_mkdir (data_dir_of args) w = (Ok (), wa) ->
     get_sim_and_robot (arg_robot_type args) (arg_degrees args) wa = (tg, w0, Ok ()) ->
     (main args w).2 = Raise ValueError /\
     (main args w).1.1 = EvMkdir (data_dir_of args) (Ok ()) :: tg).
Proof.
  intros Hn.
  assert (Hsample : forall radius z_max,
            get_evaluation_poses radius z_max (arg_num_samples args) (arg_seed args)
            = Raise ValueError).
  { intros radius z_max. now apply get_evaluation_poses_negative_shape. }
  assert (Hgsr : forall wa tg w0 r0,
            get_sim_and_robot (arg_robot_type args) (arg_degrees args) wa = (tg, w0, r0) ->
            Forall (fun ev => match ev with
                              | EvMkdir _ _ | EvSimulator _ | EvRobot _ _ _ => True
                              | _ => False
                              end) tg).
  { intros wa tg w0 r0 Hg. apply get_sim_and_robot_run in Hg
      as (r1 & w2 & _ & [(e & _ & -> & _) | [(_ & -> & _) | (u & _ & _ & _ & _ & ->)]]);
      repeat constructor. }
  destruct (main args w) as [[t w'] r] eqn:Hrun. cbn [fst snd].
  unfold main in Hrun. cbv zeta in Hrun.
  apply io_bind_inv in Hrun as [(t1 & wa & [] & t2 & H1 & H & ->) | (e & H1 & ->)];
    apply call_inv in H1 as [-> H1].
  2: { split; [now exists e |]. split; [repeat constructor |].
       intros wa' tg w0 Hmk. rewrite H1 in Hmk. discriminate. }
  apply io_bind_inv in H as [(tg & w0 & [] & t3 & H2 & H & ->) | (e & H2 & ->)].
  2: { split; [now exists e |].
       split; [constructor; [exact I | now apply Hgsr in H2] |].
       intros wa' tg' w0' Hmk Hg'. rewrite H1 in Hmk. injection Hmk as <-.
       rewrite H2 in Hg'. discriminate. }
  apply io_bind_inv in H as [(t3' & w3 & z_max & t4 & H3 & H & ->) | (e & H3 & ->)];
    [| discriminate H3].
  injection H3 as <- <- <-.
  apply io_bind_inv in H as [(t4' & w4 & radius & t5 & H4 & H & ->) | (e & H4 & ->)];
    [| discriminate H4].
  injection H4 as <- <- <-.
  apply io_bind_inv in H as [(t5' & w5 & poses & t6 & H5 & H & ->) | (e & H5 & ->)];
    injection H5 as <- <- H5; rewrite Hsample in H5; [discriminate |].
  injection H5 as <-. cbn [app]. rewrite !app_nil_r.
  split; [now exists ValueError |].
  split; [constructor; [exact I | now apply Hgsr in H2] |].
  intros wa' tg' w0' Hmk Hg'. rewrite H1 in Hmk. injection Hmk as <-.
  rewrite H2 in Hg'. injection Hg' as <- <-. auto.
Qed.

Lemma main_negative_num_samples_witness :
  (main (L := demo_lib) (C := demo_collab) demo_args_negative 0%nat).2
    = Raise ValueError /\
  length (main (L := demo_lib) (C := demo_collab) demo_args_negative 0%nat).1.1
    = 3%nat.
Proof.
  split; [| reflexivity].
  refine (proj1 (proj2 (proj2
            (@main_negative_num_samples demo_lib demo_collab demo_args_negative 0%nat _))
            0%nat _ 0%nat eq_refl eq_refl)).
  cbn. lia.
Defined.

(** X4: for a robot other than the franka, [degrees] has no effect on a run
    of main: two runs that differ in [degrees] only make the same calls, with
    the same directory and file names, and end the same way. *)
Theorem main_ignores_degrees `{L : RandomLib} `{C : Collab}
    (args args' : Args) (w : World) :
  arg_robot_type args <> "franka" ->
  arg_robot_type args' = arg_robot_type args ->
  arg_num_samples args' = arg_num_samples args ->
  arg_threshold args' = arg_threshold args ->
  arg_iterations args' = arg_iterations args ->
  arg_seed args' = arg_seed args ->
  main args' w = main args w.
Proof.
  destruct args as [rt d n th it s], args' as [rt' d' n' th' it' s'].
  cbn. intros Hrt -> -> -> -> ->.
  unfold main, data_dir_of, get_sim_and_robot. cbn.
  destruct (decide (rt = "franka")); [contradiction | reflexivity].
Qed.

Lemma main_ignores_degrees_witness :
  main (L := demo_lib) (C := demo_collab)
    {| arg_robot_type := "ur5e"; arg_degrees := 150; arg_num_samples := 2;
       arg_threshold := 25; arg_iterations := 100; arg_seed := 27 |} 0%nat
    = main (L := demo_lib) (C := demo_collab) demo_args_ur5e 0%nat.
Proof.
  apply (@main_ignores_degrees demo_lib demo_collab demo_args_ur5e);
    [discriminate | reflexivity ..].
Defined.

(** * Further properties of evaluate_ik *)

(** X9: a pose conversion that raises ends the run of evaluate_ik like a
    solver error does: no call follows, evaluate_ik raises the same
    exception, and the solver is not invoked for that pose: it was invoked
    for the poses before it only. *)
Theorem evaluate_ik_conversion_error_aborts `{C : Collab}
    (tfs : list mat4) (threshold iterations seed : Z) (w : World)
    (pre post : list event) (tf : mat4) (e : exn) :
  (evaluate_ik tfs threshold iterations seed w).1.1
    = pre ++ EvTfToPosQuat tf (Raise e) :: post ->
  (evaluate_ik tfs threshold iterations seed w).2 = Raise e /\
  post = [] /\
  all_returned pre /\
  exists done rest,
    tfs = done ++ tf :: rest /\
    length (ik_calls (evaluate_ik tfs threshold iterations seed w).1.1) = length done.
Proof.
  intros Ht.
  destruct (evaluate_ik tfs threshold iterations seed w) as [[t w'] r] eqn:Hrun.
  cbn [fst snd] in *.
  destruct (stops_raised _ w t w' r pre _ post e
              (stops_evaluate_ik tfs threshold iterations seed) Hrun Ht eq_refl)
    as (-> & -> & Hpre).
  split; [reflexivity |]. split; [reflexivity |]. split; [exact Hpre |].
  apply evaluate_ik_run in Hrun
    as (done & tf0 & rest & t1 & vs1 & wm & t2 & -> & Hs & Hf & ->).
  destruct (ok_steps_facts _ _ _ _ _ _ _ _ Hs) as (_ & Hik & _).
  exists done, rest.
  destruct Hf as [wm w1 e Etf | wm w1 w2 pos quat e Etf Eik].
  - apply app_inj_tail in Ht as [-> [= -> ]].
    split; [reflexivity |].
    rewrite ik_calls_app. cbn. rewrite app_nil_r. exact Hik.
  - exfalso.
    change (t1 ++ [EvTfToPosQuat tf0 (Ok (pos, quat));
                   EvIK pos quat threshold iterations seed (Raise e)])
      with (t1 ++ [EvTfToPosQuat tf0 (Ok (pos, quat))]
               ++ [EvIK pos quat threshold iterations seed (Raise e)]) in Ht.
    rewrite app_assoc in Ht. apply app_inj_tail in Ht as [_ [=]].
Qed.

Lemma evaluate_ik_conversion_error_aborts_witness :
  let run := evaluate_ik (C := demo_collab_tf) demo_poses 25 100 27 0%nat in
  let e := ExternalError "malformed pose" in
  run.1.1 = take 2 run.1.1
            ++ EvTfToPosQuat (C := demo_collab_tf) (set_03 eye4 (/ 2)) (Raise e) :: [] /\
  run.2 = Raise e /\
  @nil (event (C := demo_collab_tf)) = [] /\
  all_returned (take 2 run.1.1) /\
  exists done rest,
    demo_poses = done ++ set_03 eye4 (/ 2) :: rest /\
    length (ik_calls run.1.1) = length done.
Proof.
  cbv zeta.
  assert (H : (evaluate_ik (C := demo_collab_tf) demo_poses 25 100 27 0%nat).1.1
              = take 2 (evaluate_ik (C := demo_collab_tf) demo_poses 25 100 27 0%nat).1.1
                ++ EvTfToPosQuat (C := demo_collab_tf) (set_03 eye4 (/ 2))
                     (Raise (ExternalError "malformed pose")) :: [])
    by reflexivity.
  split; [exact H |].
  exact (@evaluate_ik_conversion_error_aborts demo_collab_tf demo_poses 25 100 27 0%nat
           _ _ _ _ H).
Defined.

(** X13: evaluating a pose array made of two parts is evaluating the first
    part and then, in the world the first part left, the second: the calls
    are those of the first part followed by those of the second, the verdicts
    are those of the first part followed by those of the second, and an
    exception in the first part leaves the second part untouched. *)
Theorem evaluate_ik_app `{C : Collab}
    (tfs1 tfs2 : list mat4) (threshold iterations seed : Z) (w : World) :
  evaluate_ik (tfs1 ++ tfs2) threshold iterations seed w
    = (vs1 ← evaluate_ik tfs1 threshold iterations seed;
       vs2 ← evaluate_ik tfs2 threshold iterations seed;
       mret (vs1 ++ vs2)) w.
Proof.
  destruct (evaluate_ik (tfs1 ++ tfs2) threshold iterations seed w)
    as [[t w'] r] eqn:Hab.
  apply evaluate_ik_loop_run in Hab.
  unfold mbind, io_bind, mret, io_ret.
  destruct (evaluate_ik tfs1 threshold iterations seed w) as [[ta wa] ra] eqn:Ha.
  apply evaluate_ik_loop_run in Ha.
  pose proof (loop_run_app _ _ _ _ _ _ _ _ Ha tfs2) as Happ.
  destruct ra as [va|e].
  - destruct (evaluate_ik tfs2 threshold iterations seed wa) as [[tb wb] rb] eqn:Hb.
    apply evaluate_ik_loop_run in Hb. specialize (Happ tb wb rb Hb).
    destruct (loop_run_det _ _ _ _ _ _ _ _ Hab _ _ _ Happ) as (-> & -> & ->).
    destruct rb; [now rewrite app_nil_r | reflexivity].
  - now destruct (loop_run_det _ _ _ _ _ _ _ _ Hab _ _ _ Happ) as (-> & -> & ->).
Qed.

(** X15: evaluate_ik raises no exception of its own: when it raises, the
    last call it made, a pose conversion or a solver invocation, raised that
    very exception, and every call before returned; its indexing of the two
    arrays never fails. *)
Theorem evaluate_ik_raises_what_a_call_raised `{C : Collab}
    (tfs : list mat4) (threshold iterations seed : Z) (w : World) (e : exn) :
  (evaluate_ik tfs threshold iterations seed w).2 = Raise e ->
  exists pre ev,
    (evaluate_ik tfs threshold iterations seed w).1.1 = pre ++ [ev] /\
    all_returned pre /\
    event_exn ev = Some e /\
    event_stage ev = 1%nat.
Proof.
  intros Hr.
  destruct (evaluate_ik tfs threshold iterations seed w) as [[t w'] r] eqn:Hrun.
  cbn [fst snd] in *. subst r.
  apply evaluate_ik_run in Hrun
    as (done & tf & rest & t1 & vs1 & wm & t2 & _ & Hs & Hf & ->).
  destruct (ok_steps_facts _ _ _ _ _ _ _ _ Hs) as (_ & _ & _ & Hret & _).
  destruct Hf as [wm w1 e Etf | wm w1 w2 pos quat e Etf Eik].
  - exists t1, (EvTfToPosQuat tf (Raise e)). auto.
  - exists (t1 ++ [EvTfToPosQuat tf (Ok (pos, quat))]),
      (EvIK pos quat threshold iterations seed (Raise e)).
    split; [now rewrite <- app_assoc |].
    split; [| auto].
    apply Forall_app. split; [exact Hret | now repeat constructor].
Qed.

Lemma evaluate_ik_raises_what_a_call_raised_witness :
  exists pre ev,
    (evaluate_ik (C := demo_collab) demo_poses3 25 100 27 0%nat).1.1 = pre ++ [ev] /\
    all_returned pre /\
    event_exn ev = Some (ExternalError "solver crashed") /\
    event_stage ev = 1%nat.
Proof.
  apply (@evaluate_ik_raises_what_a_call_raised demo_collab demo_poses3 25 100 27 0%nat).
  reflexivity.
Defined.

(** * The name of the data directory *)

Lemma no_underscore_app (a b : string) :
  no_underscore a -> no_underscore b -> no_underscore (a +:+ b).
Proof.
  induction a as [|c a IH]; cbn; [auto |].
  intros [Hc Ha] Hb. split; auto.
Qed.

Lemma pretty_N_char_no_underscore (x : N) : pretty_N_char x <> "_"%char.
Proof. unfold pretty_N_char. repeat case_match; discriminate. Qed.

Lemma pretty_N_go_no_underscore (x : N) (s : string) :
  no_underscore s -> no_underscore (pretty_N_go x s).
Proof.
  revert s. induction (N.lt_wf_0 x) as [x _ IH]. intros s Hs.
  destruct (decide (x = 0%N)) as [-> | Hx].
  - now rewrite pretty_N_go_0.
  - rewrite pretty_N_go_step by lia.
    apply IH; [apply N.div_lt; lia |].
    split; [apply pretty_N_char_no_underscore | exact Hs].
Qed.

Lemma pretty_Z_no_underscore (z : Z) : no_underscore (pretty z).
Proof.
  assert (HN : forall x : N, no_underscore (pretty x)).
  { intros x. unfold pretty, pretty_N.
    destruct (decide (x = 0%N)); [cbn; split; [discriminate | exact I] |].
    now apply pretty_N_go_no_underscore. }
  destruct z as [|p|p]; unfold pretty, pretty_Z.
  - cbn. split; [discriminate | exact I].
  - apply (HN (N.pos p)).
  - apply no_underscore_app; [cbn; split; [discriminate | exact I] |].
    apply (HN (N.pos p)).
Qed.

(** Two strings split at their first underscore in one way only. *)
Lemma split_underscore (a a' b b' : string) :
  no_underscore a -> no_underscore a' ->
  a +:+ String "_" b = a' +:+ String "_" b' ->
  a = a' /\ b = b'.
Proof.
  revert a'. induction a as [|c a IH]; intros [|c' a']; cbn.
  - intros _ _ [= ->]. auto.
  - intros _ [Hc' _] [= <- _]. contradiction.
  - intros [Hc _] _ [= -> _]. contradiction.
  - intros [_ Ha] [_ Ha'] [= -> H].
    destruct (IH a' Ha Ha' H) as [-> ->]. auto.
Qed.

(** The part of the directory name after the name of the robot. *)
Lemma run_suffix_inj (n t i n' t' i' : Z) :
  "_n" +:+ pretty n +:+ "_t" +:+ pretty t +:+ "_i" +:+ pretty i
    = "_n" +:+ pretty n' +:+ "_t" +:+ pretty t' +:+ "_i" +:+ pretty i' ->
  n = n' /\ t = t' /\ i = i'.
Proof.
  cbn [append]. intros [= H].
  apply split_underscore in H as [Hn H]; try apply pretty_Z_no_underscore.
  injection H as H.
  apply split_underscore in H as [Ht H]; try apply pretty_Z_no_underscore.
  injection H as Hi.
  apply pretty_Z_inj in Hn, Ht, Hi. auto.
Qed.

(** X12: for one robot type, the data directory of main names the run by
    its sample count, threshold and trial budget (and by [degrees] for the
    franka), and by nothing else: two argument sets get the same directory
    exactly when they agree on these, whatever their seeds; so two runs that
    differ in the seed only write to the same files. *)
Theorem data_dir_of_same_iff (args args' : Args) :
  arg_robot_type args = arg_robot_type args' ->
  data_dir_of args = data_dir_of args' <->
  arg_num_samples args = arg_num_samples args' /\
  arg_threshold args = arg_threshold args' /\
  arg_iterations args = arg_iterations args' /\
  (arg_robot_type args = "franka" -> arg_degrees args = arg_degrees args').
Proof.
  destruct args as [rt d n th it s], args' as [rt' d' n' th' it' s'].
  cbn. intros <-. unfold data_dir_of, path_join. cbn [arg_robot_type arg_degrees
    arg_num_samples arg_threshold arg_iterations].
  split.
  - intros H.
    apply (inj (String.app "data")) in H. apply (inj (String.app "/")) in H.
    apply (inj (String.app "eval_poses_")) in H.
    destruct (decide (rt = "franka")) as [-> | Hrt].
    + cbn [append] in H. injection H as H.
      apply split_underscore in H as [Hd H]; try apply pretty_Z_no_underscore.
      apply pretty_Z_inj in Hd.
      apply (f_equal (String "_")) in H.
      apply (run_suffix_inj n th it n' th' it') in H as (-> & -> & ->). auto.
    + apply (inj (String.app rt)) in H.
      apply run_suffix_inj in H as (-> & -> & ->).
      repeat (split; [reflexivity |]). contradiction.
  - intros (-> & -> & -> & Hd).
    destruct (decide (rt = "franka")) as [Hrt | Hrt]; [| reflexivity].
    now rewrite (Hd Hrt).
Qed.

Lemma data_dir_of_same_iff_witness :
  data_dir_of demo_args
    = data_dir_of {| arg_robot_type := "franka"; arg_degrees := 166;
                     arg_num_samples := 2; arg_threshold := 25;
                     arg_iterations := 100; arg_seed := 28 |}.
Proof.
  apply (data_dir_of_same_iff demo_args); [reflexivity |].
  cbn. auto.
Defined.
